(** * Cyclus: RecipeReactor, Message routing and Env, embedded in Rocq

    Shallow embedding of
      - [src/Models/Facility/RecipeReactor.cpp] (the reference facility),
      - [Message.h] (the message envelope and its two-leg path protocol),
      - [src/Utility/Env.cpp] ([Env::checkEnv]).

    Conventions of the embedding.
      - [Mass] is a C++ [double] in the source.  It is modelled by the exact
        rationals [Q]: comparisons, sums and differences are the exact ones,
        rounding and NaN are outside the model.  Quantities are compared
        with [==] ([Qeq]).  Where a statement depends on where a loop cuts
        a material, or on a balance of quantities, it is made for [exact]
        quantities (integers up to 2^53, with sums within that bound), on
        which the sums, differences and comparisons of a [double] are the
        exact ones.
      - Pointers to communicators, models and facilities are the serial
        number of the object they point to; a null or unset pointer is
        [None].
      - [std::deque] and [std::vector] are lists, the front of a deque is
        the head of the list.
      - Methods of [RecipeReactor] run in a state-and-exception monad [M]
        over [Sim]: the facility's own fields and the calls it makes on
        other objects, recorded in order.  A [while] loop is a fixpoint
        on an explicit iteration budget (fuel).
      - The [receiveMaterial] that [sendMaterial] calls on the requester
        is recorded, not run.  A requester that is the facility itself
        gets the manifest in its own stocks within the call: the recorded
        delivery is then followed by [receiveMaterial] on the facility.
        What [sendMaterial] and [handleTock] ship is described through
        the inventory, the order queue and the calls made, and through
        the stocks only for orders of other facilities. *)

From Stdlib Require Import QArith Qminmax Qabs Lqa.
From Stdlib Require Import List String Bool Arith Lia.
Import ListNotations.

Open Scope Q_scope.

(* ================================================================== *)
(** ** Scalars *)

(** [typedef double Mass]. *)
Definition Mass : Type := Q.

(** [x <= y] on masses. *)
Definition mass_le (x y : Mass) : bool := Qle_bool x y.

(** [x < y] on masses. *)
Definition mass_lt (x y : Mass) : bool := negb (Qle_bool y x).

(** [x > y] on masses. *)
Definition mass_gt (x y : Mass) : bool := mass_lt y x.

(** [x >= y] on masses. *)
Definition mass_ge (x y : Mass) : bool := mass_le y x.

(** [x == y] on masses. *)
Definition mass_eq (x y : Mass) : bool := Qeq_bool x y.

(** Serial number of a model ([getSN()]); stands for a pointer to it. *)
Definition AgentId : Type := nat.

(* ================================================================== *)
(** ** Commodity, Material *)

(** A commodity, as far as the facility uses it: [getName()] and
    [getMarket()].  The registry holds one object per commodity, so
    comparing two [Commodity*] is comparing the records. *)
Record Commodity : Type := mkCommodity {
  commodName : string;
  commodMarket : AgentId
}.

Definition Commodity_eq_dec (a b : Commodity) : {a = b} + {a <> b}.
Proof.
  decide equality; [apply Nat.eq_dec | apply string_dec].
Defined.

(** A material object: its units, its name and its total mass
    ([getUnits()], [getName()], [getTotMass()]).  The composition is
    opaque to the facility. *)
Record Material : Type := mkMaterial {
  matUnits : string;
  matName : string;
  totMass : Mass
}.

(** [new Material(CompMap(), units, name, 0, atomBased)]: an empty
    material. *)
Definition emptyMaterial (units name : string) : Material :=
  mkMaterial units name 0.

(** Modelled from the spec: [Material::absorb] is not under src/.
    "[absorb(other)] consumes [other] entirely, adding its quantity into
    [self]; after return [other] holds quantity 0."  Returns the new
    [self] and the new [other]. *)
Definition absorb (self other : Material) : Material * Material :=
  (mkMaterial (matUnits self) (matName self) (totMass self + totMass other),
   mkMaterial (matUnits other) (matName other) 0).

(** Modelled from the spec: [Material::extractMass] is not under src/.
    "[extract(amount)] splits off a fresh Resource of exactly [amount] and
    decrements [self] by the same; fails if [amount > total_quantity()] or
    [amount < 0]."  Returns the extracted material and the new [self];
    [None] is the failure. *)
Definition extractMass (self : Material) (amt : Mass)
  : option (Material * Material) :=
  if mass_gt amt (totMass self) || mass_lt amt 0 then None
  else Some (mkMaterial (matUnits self) (matName self) amt,
             mkMaterial (matUnits self) (matName self) (totMass self - amt)).

(** Sum of [getTotMass()] over a container, front to back. *)
Fixpoint sumMass (l : list Material) : Mass :=
  match l with
  | [] => 0
  | m :: rest => totMass m + sumMass rest
  end.

(* ================================================================== *)
(** ** Transaction and Message (Message.h) *)

(** [enum MessageDir {UP_MSG, DOWN_MSG, NONE_MSG}]; the spec calls the
    third direction DONE. *)
Inductive MessageDir : Type := UP_MSG | DOWN_MSG | NONE_MSG.

Definition MessageDir_eq_dec (a b : MessageDir) : {a = b} + {a <> b}.
Proof. decide equality. Defined.

(** [struct Transaction]. *)
Record Transaction : Type := mkTransaction {
  commod : Commodity;
  amount : Mass;
  min : Mass;
  price : Mass;
  resource : option Material;
  supplier : option AgentId;
  requester : option AgentId
}.

(** [class Message]: the private fields of the header, and the next
    destination written by [setNextDest] ([next_dest_], which the spec's
    data model lists as "designated next destination"). *)
Record Message : Type := mkMessage {
  dir_ : MessageDir;
  trans_ : Transaction;
  sender_ : AgentId;
  recipient_ : option AgentId;
  path_stack_ : list AgentId;      (* top of the stack first *)
  current_owner_ : option AgentId;
  next_dest_ : option AgentId
}.

Definition getTrans (m : Message) : Transaction := trans_ m.
Definition getAmount (m : Message) : Mass := amount (trans_ m).
Definition getSupplierID (m : Message) : option AgentId := supplier (trans_ m).
Definition getRequesterID (m : Message) : option AgentId := requester (trans_ m).
Definition getDir (m : Message) : MessageDir := dir_ m.
Definition getSender (m : Message) : AgentId := sender_ m.

(** Modelled from the spec: the constructor's body is not under src/.
    [Message(dir, commod, amount, min, price, sender, recipient)] as the
    facility calls it: a message "created by the originator", held by it,
    with an empty path stack, no next destination, and neither supplier
    nor requester set. *)
Definition newMessage (dir : MessageDir) (c : Commodity)
    (amt minAmt commod_price : Mass) (sender : AgentId)
    (recipient : option AgentId) : Message :=
  mkMessage dir
    (mkTransaction c amt minAmt commod_price None None None)
    sender recipient [] (Some sender) None.

(* ------------------------------------------------------------------ *)
(** *** Routing: setNextDest, sendOn, reverseDirection

    [Message.h] declares these methods; their bodies are not under src/.
    Each is modelled from section 4.1 of the specification. *)

(** The failures of the routing operations (spec, "Failure taxonomy" and
    [set_next_dest]). *)
Inductive MessageError : Type :=
| NoDestination
| Circular
| TerminalMessage
| InvalidRecipient.

(** Modelled from the spec: [Message::setNextDest] is not under src/.
    "records the next UP hop.  Has no effect when direction is not UP.
    Fails with InvalidRecipient if [agent] equals the current holder." *)
Definition setNextDest (m : Message) (next_stop : AgentId)
  : MessageError + Message :=
  match dir_ m with
  | UP_MSG =>
      match current_owner_ m with
      | Some h =>
          if Nat.eqb next_stop h then inl InvalidRecipient
          else inr (mkMessage (dir_ m) (trans_ m) (sender_ m) (recipient_ m)
                      (path_stack_ m) (current_owner_ m) (Some next_stop))
      | None =>
          inr (mkMessage (dir_ m) (trans_ m) (sender_ m) (recipient_ m)
                 (path_stack_ m) (current_owner_ m) (Some next_stop))
      end
  | _ => inr m
  end.

(** Pushing the current holder on the path stack; a message held by
    nobody has nothing to push. *)
Definition push_owner (m : Message) : list AgentId :=
  match current_owner_ m with
  | Some h => h :: path_stack_ m
  | None => path_stack_ m
  end.

(** [agent] is the current holder of [m]. *)
Definition is_owner (m : Message) (agent : AgentId) : bool :=
  match current_owner_ m with
  | Some h => Nat.eqb agent h
  | None => false
  end.

(** Modelled from the spec: [Message::sendOn] is not under src/.
    - UP: "fails with NoDestination if next_dest is unset; fails with
      Circular if next_dest == originator; otherwise pushes current_holder
      onto the path stack, sets current_holder := next_dest, clears
      next_dest, and invokes receive(self) on the new holder."  The table
      of error kinds adds "Circular: next_dest equals current holder";
      both are failures here.
    - DOWN: "fails with TerminalMessage if the path stack is empty AND
      direction is DONE" (which a message going DOWN is not).  "Otherwise
      pops the top of the path stack, sets current_holder := popped, and
      invokes receive(self) on it.  If after this pop the stack is empty,
      direction transitions to DONE."  "A send with an empty path stack
      on DOWN transitions to DONE."
    - DONE: "fails with TerminalMessage."
    The result is the message after the send and the agent whose
    [receiveMessage] is invoked, if any. *)
Definition sendOn (m : Message)
  : MessageError + (Message * option AgentId) :=
  match dir_ m with
  | UP_MSG =>
      match next_dest_ m with
      | None => inl NoDestination
      | Some d =>
          if Nat.eqb d (sender_ m) || is_owner m d then inl Circular
          else inr (mkMessage UP_MSG (trans_ m) (sender_ m) (recipient_ m)
                      (push_owner m) (Some d) None,
                    Some d)
      end
  | DOWN_MSG =>
      match path_stack_ m with
      | [] =>
          inr (mkMessage NONE_MSG (trans_ m) (sender_ m) (recipient_ m)
                 [] (current_owner_ m) (next_dest_ m),
               None)
      | top :: rest =>
          inr (mkMessage
                 (match rest with [] => NONE_MSG | _ => DOWN_MSG end)
                 (trans_ m) (sender_ m) (recipient_ m)
                 rest (Some top) (next_dest_ m),
               Some top)
      end
  | NONE_MSG => inl TerminalMessage
  end.

(** Modelled from the spec: [Message::reverseDirection] is not under
    src/.  "UP->DOWN or DOWN->UP."  "When flipping UP->DOWN, the
    originator is not pushed onto the stack at flip time."  A terminal
    message stays terminal. *)
Definition reverseDirection (m : Message) : Message :=
  mkMessage
    (match dir_ m with
     | UP_MSG => DOWN_MSG
     | DOWN_MSG => UP_MSG
     | NONE_MSG => NONE_MSG
     end)
    (trans_ m) (sender_ m) (recipient_ m)
    (path_stack_ m) (current_owner_ m) (next_dest_ m).

(** One record of a hop: who held the message when [sendOn] was called
    and whose [receiveMessage] was invoked. *)
Record Hop : Type := mkHop {
  hop_from : option AgentId;
  hop_to : AgentId
}.

(** The UP leg: at each stop the holder designates the next stop with
    [setNextDest] and calls [sendOn] ("Routing protocol - outbound").
    [stops] are the designated next stops in order; the result is the
    message at its last stop with the hops made, oldest first. *)
Fixpoint upLeg (m : Message) (stops : list AgentId)
  : MessageError + (Message * list Hop) :=
  match stops with
  | [] => inr (m, [])
  | next_stop :: stops' =>
      match setNextDest m next_stop with
      | inl e => inl e
      | inr m1 =>
          match sendOn m1 with
          | inl e => inl e
          | inr (m2, None) => upLeg m2 stops'
          | inr (m2, Some to) =>
              match upLeg m2 stops' with
              | inl e => inl e
              | inr (m3, hops) =>
                  inr (m3, mkHop (current_owner_ m1) to :: hops)
              end
          end
      end
  end.

(** The DOWN leg: every holder calls [sendOn] unchanged ("Routing
    protocol - inbound") until the message is DONE.  [fuel] bounds the
    number of calls; [None] means the budget ran out. *)
Fixpoint downLeg (fuel : nat) (m : Message)
  : option (MessageError + (Message * list Hop)) :=
  match dir_ m with
  | NONE_MSG => Some (inr (m, []))
  | _ =>
      match fuel with
      | O => None
      | S fuel' =>
          match sendOn m with
          | inl e => Some (inl e)
          | inr (m1, None) => downLeg fuel' m1
          | inr (m1, Some to) =>
              match downLeg fuel' m1 with
              | Some (inr (m2, hops)) =>
                  Some (inr (m2, mkHop (current_owner_ m) to :: hops))
              | other => other
              end
          end
      end
  end.

(* ================================================================== *)
(** ** Env::checkEnv (src/Utility/Env.cpp) *)

(** The process environment: [getenv(name)] is [None] for the null
    pointer (variable absent) and [Some s] for a pointer to the value. *)
Definition Environ : Type := string -> option string.

(** What a call can do: return, throw [GenException(msg)], or run into
    undefined behaviour (here: [strlen] of a null pointer). *)
Inductive Outcome (A : Type) : Type :=
| Returns (a : A)
| Throws (msg : string)
| Undefined.
Arguments Returns {A} a.
Arguments Throws {A} msg.
Arguments Undefined {A}.

(** [strlen(p)]: the length of the string [p] points to; not defined on
    the null pointer. *)
Definition strlen (p : option string) : option nat :=
  match p with
  | Some s => Some (String.length s)
  | None => None
  end.

(** [Env::checkEnv].
<<
  if ((strlen(getenv(varname.c_str()))>0)&&(getenv(varname.c_str())!=NULL)){
    toRet = getenv(varname.c_str());
  }
  else {
    throw GenException("Environment variable " + varname + " not set.");
  }
  return toRet;
>>
    The left operand of [&&] is evaluated first. *)
Definition checkEnv (getenv : Environ) (varname : string) : Outcome string :=
  match strlen (getenv varname) with
  | None => Undefined
  | Some n =>
      if Nat.ltb 0 n
         && (match getenv varname with Some _ => true | None => false end)
      then
        match getenv varname with
        | Some toRet => Returns toRet
        | None => Undefined
        end
      else Throws ("Environment variable " ++ varname ++ " not set.")
  end.

(* ================================================================== *)
(** ** RecipeReactor (src/Models/Facility/RecipeReactor.cpp) *)

(** The fields of a [RecipeReactor] that its message and material
    handling reads or writes. *)
Record RecipeReactor : Type := mkRecipeReactor {
  SN : AgentId;
  in_commod : Commodity;
  out_commod : Commodity;
  inventory_size : Mass;
  capacity : Mass;
  inventory : list Material;
  stocks : list Material;
  ordersWaiting : list Message
}.

Definition set_inventory (r : RecipeReactor) (inv : list Material) :=
  mkRecipeReactor (SN r) (in_commod r) (out_commod r) (inventory_size r)
    (capacity r) inv (stocks r) (ordersWaiting r).

Definition set_stocks (r : RecipeReactor) (sto : list Material) :=
  mkRecipeReactor (SN r) (in_commod r) (out_commod r) (inventory_size r)
    (capacity r) (inventory r) sto (ordersWaiting r).

Definition set_ordersWaiting (r : RecipeReactor) (q : list Message) :=
  mkRecipeReactor (SN r) (in_commod r) (out_commod r) (inventory_size r)
    (capacity r) (inventory r) (stocks r) q.

(** A call the facility makes on another object.  The call is
    recorded, not run: the receiver is another object of the simulation
    (a delivery addressed to the facility itself shows up as a later
    [receiveMaterial] on it). *)
Inductive Event : Type :=
  (** a message handed upwards: [(request->getInst())->receiveMessage(request)]
      and [sendMessage(msg)] *)
| SentUp (msg : Message)
  (** [LI->getFacilityByID(id)->receiveMaterial(trans, manifest)] *)
| Delivered (id : option AgentId) (trans : Transaction)
            (manifest : list Material).

(** The facility and the calls it has made so far, oldest first. *)
Record Sim : Type := mkSim {
  self : RecipeReactor;
  trace : list Event
}.

(** [GenException(msg)]. *)
Inductive GenException : Type := GenExc (msg : string).

(** Result of running a method: normal return, an exception thrown in
    the state reached so far, or the iteration budget ran out. *)
Inductive Result (A : Type) : Type :=
| Ok (a : A) (s : Sim)
| Throw (e : GenException) (s : Sim)
| OutOfFuel.
Arguments Ok {A} a s.
Arguments Throw {A} e s.
Arguments OutOfFuel {A}.

Definition M (A : Type) : Type := Sim -> Result A.

Definition ret {A} (a : A) : M A := fun s => Ok a s.

Definition bind {A B} (c : M A) (k : A -> M B) : M B :=
  fun s =>
    match c s with
    | Ok a s' => k a s'
    | Throw e s' => Throw e s'
    | OutOfFuel => OutOfFuel
    end.

Definition throw {A} (e : GenException) : M A := fun s => Throw e s.

Definition out_of_fuel {A} : M A := fun _ => OutOfFuel.

Definition get_self : M RecipeReactor := fun s => Ok (self s) s.

Definition modify (f : RecipeReactor -> RecipeReactor) : M unit :=
  fun s => Ok tt (mkSim (f (self s)) (trace s)).

Definition emit (e : Event) : M unit :=
  fun s => Ok tt (mkSim (self s) (trace s ++ [e])).

Notation "x <- c ;; k" := (bind c (fun x => k))
  (at level 61, c at next level, right associativity).
Notation "c ;; k" := (bind c (fun _ => k))
  (at level 61, right associativity).

(** The exceptions the facility throws; the spec names them
    [NotSupplier] and [CommodityMismatch]. *)
Definition NotSupplier : GenException :=
  GenExc "RecipeReactor is not the supplier of this msg.".

Definition CommodityMismatch : GenException :=
  GenExc "RecipeReactor can only send out_commod materials.".

(** Failure of [Material::extractMass], which the spec leaves unnamed. *)
Definition ExtractFailure : GenException :=
  GenExc "extractMass: amount out of range.".

(** [RecipeReactor::checkInventory]: [total] starts at 0 and every
    material of the inventory adds its mass to it, front to back. *)
Definition checkInventory (r : RecipeReactor) : Mass :=
  fold_left (fun total m => total + totMass m) (inventory r) 0.

(** [RecipeReactor::checkStocks]: the same over the stocks. *)
Definition checkStocks (r : RecipeReactor) : Mass :=
  fold_left (fun total m => total + totMass m) (stocks r) 0.

(** The local [space] of [handleTick], the spec's [free_space]:
    [inventory_size - inv - sto]. *)
Definition free_space (r : RecipeReactor) : Mass :=
  inventory_size r - checkInventory r - checkStocks r.

(** [RecipeReactor::receiveMessage]. *)
Definition receiveMessage (msg : Message) : M unit :=
  r <- get_self ;;
  match getSupplierID msg with
  | Some id =>
      if Nat.eqb id (SN r)
      then modify (fun r => set_ordersWaiting r (msg :: ordersWaiting r))
      else throw NotSupplier
  | None => throw NotSupplier
  end.

(** [RecipeReactor::receiveMaterial]: every material of the manifest is
    pushed on the back of [stocks], in manifest order. *)
Fixpoint receiveMaterial (trans : Transaction) (manifest : list Material)
  : M unit :=
  match manifest with
  | [] => ret tt
  | thisMat :: rest =>
      modify (fun r => set_stocks r (stocks r ++ [thisMat])) ;;
      receiveMaterial trans rest
  end.

(** [q.empty()] on a deque or vector. *)
Definition empty {A} (q : list A) : bool :=
  match q with
  | [] => true
  | _ :: _ => false
  end.

(** The [while] loop of [RecipeReactor::sendMaterial], with its locals
    [newAmt] and [toSend]; returns the manifest. *)
Fixpoint sendMaterial_loop (fuel : nat) (trans : Transaction)
    (newAmt : Mass) (toSend : list Material) : M (list Material) :=
  match fuel with
  | O => out_of_fuel
  | S fuel' =>
      r <- get_self ;;
      if mass_gt (amount trans) newAmt && negb (empty (inventory r)) then
        match inventory r with
        | [] => ret toSend       (* excluded by the loop condition *)
        | m :: rest =>
            let newMat := emptyMaterial (matUnits m) (matName m) in
            if mass_le (totMass m) (amount trans - newAmt) then
              (* not larger than the remaining need: send it as is *)
              let newAmt' := newAmt + totMass m in
              let newMat' := fst (absorb newMat m) in
              modify (fun r => set_inventory r rest) ;;
              sendMaterial_loop fuel' trans newAmt' (toSend ++ [newMat'])
            else
              (* larger than the remaining need: split it *)
              match extractMass m (amount trans - newAmt) with
              | None => throw ExtractFailure
              | Some (toAbsorb, m') =>
                  let newAmt' := newAmt + totMass toAbsorb in
                  let newMat' := fst (absorb newMat toAbsorb) in
                  modify (fun r => set_inventory r (m' :: rest)) ;;
                  sendMaterial_loop fuel' trans newAmt' (toSend ++ [newMat'])
              end
        end
      else ret toSend
  end.

(** [RecipeReactor::sendMaterial]. *)
Definition sendMaterial (fuel : nat) (trans : Transaction)
    (requester_ : option AgentId) : M unit :=
  r <- get_self ;;
  if Commodity_eq_dec (commod trans) (out_commod r) then
    toSend <- sendMaterial_loop fuel trans 0 [] ;;
    emit (Delivered (requester trans) trans toSend)
  else
    throw CommodityMismatch.

(** [RecipeReactor::handleTick].  The request, when there is one, is
    handed up before the offer. *)
Definition handleTick (time : nat) : M unit :=
  r <- get_self ;;
  let minAmt : Mass := 0 in
  let inv := checkInventory r in
  let sto := checkStocks r in
  let space := inventory_size r - inv - sto in
  let commod_price : Mass := 0 in
  (if mass_eq space 0 then
     (* don't request anything *)
     ret tt
   else if mass_lt space (capacity r) then
     let recipient := commodMarket (in_commod r) in
     let requestAmt := space in
     emit (SentUp (newMessage UP_MSG (in_commod r) (- requestAmt) minAmt
                     commod_price (SN r) (Some recipient)))
   else if mass_ge space (capacity r) then
     let recipient := commodMarket (in_commod r) in
     let requestAmt := capacity r - sto in
     emit (SentUp (newMessage UP_MSG (in_commod r) (- requestAmt) minAmt
                     commod_price (SN r) (Some recipient)))
   else ret tt) ;;
  let possInv := inv + capacity r in
  let offer_amt := if mass_lt possInv (inventory_size r)
                   then possInv else inventory_size r in
  let min_amt : Mass := 0 in
  let recipient := commodMarket (out_commod r) in
  emit (SentUp (newMessage UP_MSG (out_commod r) offer_amt min_amt
                  commod_price (SN r) (Some recipient))).

(** The first [while] loop of [RecipeReactor::handleTock]: stocks are
    converted and moved to the back of [inventory], at most [capacity]
    per call. *)
Fixpoint process_loop (fuel : nat) (complete : Mass) : M unit :=
  match fuel with
  | O => out_of_fuel
  | S fuel' =>
      r <- get_self ;;
      if mass_gt (capacity r) complete && negb (empty (stocks r)) then
        match stocks r with
        | [] => ret tt           (* excluded by the loop condition *)
        | m :: rest =>
            let newMat := emptyMaterial (matUnits m) (matName m) in
            if mass_le (totMass m) (capacity r - complete) then
              (* not larger than the remaining capacity: move it as is *)
              let complete' := complete + totMass m in
              let newMat' := fst (absorb newMat m) in
              modify (fun r => set_stocks r rest) ;;
              modify (fun r => set_inventory r (inventory r ++ [newMat'])) ;;
              process_loop fuel' complete'
            else
              (* larger than the remaining capacity: split it *)
              match extractMass m (capacity r - complete) with
              | None => throw ExtractFailure
              | Some (toAbsorb, m') =>
                  let complete' := complete + totMass toAbsorb in
                  let newMat' := fst (absorb newMat toAbsorb) in
                  modify (fun r => set_stocks r (m' :: rest)) ;;
                  modify (fun r => set_inventory r (inventory r ++ [newMat'])) ;;
                  process_loop fuel' complete'
              end
        end
      else ret tt
  end.

(** The second [while] loop of [RecipeReactor::handleTock]: the order at
    the front is shipped, then popped. *)
Fixpoint orders_loop (fuel : nat) : M unit :=
  match fuel with
  | O => out_of_fuel
  | S fuel' =>
      r <- get_self ;;
      if negb (empty (ordersWaiting r)) then
        match ordersWaiting r with
        | [] => ret tt           (* excluded by the loop condition *)
        | order :: _ =>
            sendMaterial fuel (getTrans order) (getRequesterID order) ;;
            modify (fun r => set_ordersWaiting r (tl (ordersWaiting r))) ;;
            orders_loop fuel'
        end
      else ret tt
  end.

(** [RecipeReactor::handleTock]. *)
Definition handleTock (fuel : nat) (time : nat) : M unit :=
  process_loop fuel 0 ;;
  orders_loop fuel.

(** The messages of [msgs] arriving at the facility one after the
    other, first to last. *)
Fixpoint receiveMessages (msgs : list Message) : M unit :=
  match msgs with
  | [] => ret tt
  | msg :: rest => receiveMessage msg ;; receiveMessages rest
  end.

(** A call of one of the facility's methods by the simulation. *)
Inductive Call : Type :=
| CallTick (time : nat)
| CallTock (fuel time : nat)
| CallReceiveMessage (msg : Message)
| CallSendMaterial (fuel : nat) (trans : Transaction)
    (requester_ : option AgentId)
| CallReceiveMaterial (trans : Transaction) (manifest : list Material).

Definition run (c : Call) : M unit :=
  match c with
  | CallTick time => handleTick time
  | CallTock fuel time => handleTock fuel time
  | CallReceiveMessage msg => receiveMessage msg
  | CallSendMaterial fuel trans requester_ =>
      sendMaterial fuel trans requester_
  | CallReceiveMaterial trans manifest => receiveMaterial trans manifest
  end.

(** The state a call leaves behind, by return or by exception; none
    when the call was cut short by its budget. *)
Definition state_after {A} (res : Result A) : option Sim :=
  match res with
  | Ok _ s => Some s
  | Throw _ s => Some s
  | OutOfFuel => None
  end.

(* ================================================================== *)
(** ** RecipeReactor: init, copy, copyFreshModel *)

(** The members of [RecipeReactor] that [init] and [copy] set and that
    the message and material handling never reads. *)
Record ReactorData : Type := mkReactorData {
  lifetime : Z;
  startConstrYr : Z;
  startConstrMo : Z;
  startOpYr : Z;
  startOpMo : Z;
  licExpYr : Z;
  licExpMo : Z;
  state : string;
  typeReac : string;
  CF : Mass
}.

Section Init.

(** What [init] reads from outside the facility; none of it is under
    src/.  [content path] is [XMLinput->get_xpath_content(cur, path)]
    with [cur] at [model/RecipeReactor]; [getCommodity] is
    [LI->getCommodity], [None] for the null pointer; [atof] and [atoi]
    are the C library's. *)
Variable content : string -> string.
Variable getCommodity : string -> option Commodity.
Variable atof : string -> Mass.
Variable atoi : string -> Z.

(** [RecipeReactor::init], for the facility with serial number [sn] and
    name [name] ([getName()]) that [FacilityModel::init] has set up. *)
Definition init (sn : AgentId) (name : string)
  : GenException + (RecipeReactor * ReactorData) :=
  let commod_name := content "incommodity" in
  match getCommodity commod_name with
  | None =>
      inl (GenExc ("Input commodity '" ++ commod_name
                   ++ "' does not exist for facility '" ++ name ++ "'."))
  | Some in_c =>
      let commod_name := content "outcommodity" in
      match getCommodity commod_name with
      | None =>
          inl (GenExc ("Output commodity '" ++ commod_name
                       ++ "' does not exist for facility '" ++ name ++ "'."))
      | Some out_c =>
          inr (mkRecipeReactor sn in_c out_c
                 (atof (content "inventorysize"))
                 (atof (content "capacity"))
                 [] [] [],
               mkReactorData
                 (atoi (content "lifetime"))
                 (atoi (content "startConstrYear"))
                 (atoi (content "startConstrMonth"))
                 (atoi (content "startOperYear"))
                 (atoi (content "startOperMonth"))
                 (atoi (content "licExpYear"))
                 (atoi (content "licExpMonth"))
                 (content "state")
                 (content "typeReac")
                 (atof (content "CF")))
      end
  end.

End Init.

(** [RecipeReactor::copy], for the facility with serial number [sn]
    that [FacilityModel::copy] has set up: every parameter is taken from
    [src], the three containers start empty. *)
Definition copy (sn : AgentId) (src : RecipeReactor * ReactorData)
  : RecipeReactor * ReactorData :=
  (mkRecipeReactor sn (in_commod (fst src)) (out_commod (fst src))
     (inventory_size (fst src)) (capacity (fst src)) [] [] [],
   mkReactorData (lifetime (snd src)) (startConstrYr (snd src))
     (startConstrMo (snd src)) (startOpYr (snd src)) (startOpMo (snd src))
     (licExpYr (snd src)) (licExpMo (snd src)) (state (snd src))
     (typeReac (snd src)) (CF (snd src))).

(** [RecipeReactor::copyFreshModel]. *)
Definition copyFreshModel (sn : AgentId) (src : RecipeReactor * ReactorData)
  : RecipeReactor * ReactorData :=
  copy sn src.

(* ================================================================== *)
(** ** Env::Instance (src/Utility/Env.cpp) *)

(** The static [Env::instance_] ([None] for the null pointer) and the
    address the next [new] returns. *)
Record EnvStatics : Type := mkEnvStatics {
  instance_ : option nat;
  next_new : nat
}.

(** [Env::Instance]: the pointer returned and the statics after the
    call. *)
Definition Instance (p : EnvStatics) : nat * EnvStatics :=
  match instance_ p with
  | None =>
      (next_new p, mkEnvStatics (Some (next_new p)) (S (next_new p)))
  | Some e => (e, p)
  end.

(** [n] calls of [Env::Instance] in a row: the pointers returned, in
    order, and the statics after the last call. *)
Fixpoint Instance_calls (n : nat) (p : EnvStatics) : list nat * EnvStatics :=
  match n with
  | O => ([], p)
  | S n' =>
      let (e, p1) := Instance p in
      let (es, p2) := Instance_calls n' p1 in
      (e :: es, p2)
  end.

(* ================================================================== *)
(** ** Model::loadConstructor (UnixLoadConstr.h) *)

(** A [std::map<std::string, V>]: [map_find] is [find] ([None] for
    [end()]), [map_set] is [m[k] = v]. *)
Definition StrMap (V : Type) : Type := list (string * V).

Fixpoint map_find {V} (k : string) (m : StrMap V) : option V :=
  match m with
  | [] => None
  | (k', v) :: m' => if String.eqb k k' then Some v else map_find k m'
  end.

Fixpoint map_set {V} (k : string) (v : V) (m : StrMap V) : StrMap V :=
  match m with
  | [] => [(k, v)]
  | (k', v') :: m' =>
      if String.eqb k k' then (k, v) :: m' else (k', v') :: map_set k v m'
  end.

(** A handle returned by [dlopen], the address of a symbol. *)
Definition Handle : Type := nat.
Definition Symbol : Type := nat.

(** The call of the dynamic linker that failed last. *)
Inductive DlCall : Type :=
| DlOpen (file : string)
| DlSym (h : Handle) (symbol : string).

(** The dynamic linker: [dlopen(file, RTLD_LAZY)] and [dlsym(h, symbol)],
    [None] for the null pointer, and the text [dlerror()] gives after a
    failed call. *)
Record Linker : Type := mkLinker {
  dlopen : string -> option Handle;
  dlsym : Handle -> string -> option Symbol;
  dlerror : DlCall -> string
}.

(** The statics [Model::create_map_] and [Model::destroy_map_], and the
    files [dlopen] has been called on, oldest first. *)
Record ModelStatics : Type := mkModelStatics {
  create_map_ : StrMap Symbol;
  destroy_map_ : StrMap Symbol;
  dlopened : list string
}.

(** [CycIOException(msg)]. *)
Inductive CycIOException : Type := CycIOExc (msg : string).

Inductive LoadResult : Type :=
| LoadReturns (new_model : Symbol) (st : ModelStatics)
| LoadThrows (e : CycIOException) (st : ModelStatics).

(** The file [loadConstructor] opens for a model:
    [start_path + "/Models/" + model_type + "/lib" + model_name + SUFFIX]. *)
Definition library_file (start_path suffix model_type model_name : string)
  : string :=
  start_path ++ "/Models/" ++ model_type ++ "/lib" ++ model_name ++ suffix.

(** [Model::loadConstructor].  [start_path] is [ENV->getCyclusPath()]
    and [suffix] the macro [SUFFIX] of suffix.h, neither under src/. *)
Definition loadConstructor (dl : Linker) (start_path suffix : string)
    (model_type model_name : string) (st : ModelStatics) : LoadResult :=
  match map_find model_name (create_map_ st) with
  | None =>
      let model_name := library_file start_path suffix model_type model_name in
      let st1 := mkModelStatics (create_map_ st) (destroy_map_ st)
                   (dlopened st ++ [model_name]) in
      match dlopen dl model_name with
      | None =>
          LoadThrows (CycIOExc ("Unable to load model shared object file: "
                                ++ dlerror dl (DlOpen model_name))) st1
      | Some model =>
          match dlsym dl model "construct" with
          | None =>
              LoadThrows (CycIOExc ("Unable to load model constructor: "
                                    ++ dlerror dl (DlSym model "construct")))
                         st1
          | Some new_model =>
              match dlsym dl model "destruct" with
              | None =>
                  LoadThrows (CycIOExc ("Unable to load model destructor: "
                                        ++ dlerror dl (DlSym model "destruct")))
                             st1
              | Some del_model =>
                  LoadReturns new_model
                    (mkModelStatics
                       (map_set model_name new_model (create_map_ st))
                       (map_set model_name del_model (destroy_map_ st))
                       (dlopened st1))
              end
          end
      end
  | Some new_model => LoadReturns new_model st
  end.

(* ================================================================== *)
(** ** Vocabulary of the statements *)

(** The quantities shipped for orders of the given amounts, served in
    this order from [avail]: each order gets its amount, as far as what
    is left goes, and nothing for a negative amount. *)
Fixpoint served (avail : Mass) (amounts : list Mass) : list Mass :=
  match amounts with
  | [] => []
  | a :: rest =>
      let t := Qmin (Qmax a 0) avail in
      t :: served (avail - t) rest
  end.

(** Sum of a list of quantities. *)
Fixpoint total (l : list Mass) : Mass :=
  match l with
  | [] => 0
  | q :: rest => q + total rest
  end.

(** A quantity on which the code's arithmetic is exact: an integer of
    absolute value at most 2^53.  A [double] holds every such number,
    and the sum or the difference of two of them, when it is within the
    bound again, is computed without rounding. *)
Definition exact (q : Mass) : Prop :=
  exists z : Z, q == inject_Z z /\ (Z.abs z <= 9007199254740992)%Z.

(** Every material of a container holds an [exact] quantity. *)
Definition exact_all (l : list Material) : Prop :=
  Forall (fun m => exact (totMass m)) l.

(** The offer of [handleTick]: the message built at the end of the
    method from [offer_amt], [min_amt], [commod_price] and the market of
    the output commodity. *)
Definition offer_message (r : RecipeReactor) : Message :=
  newMessage UP_MSG (out_commod r)
    (if mass_lt (checkInventory r + capacity r) (inventory_size r)
     then checkInventory r + capacity r
     else inventory_size r)
    0 0 (SN r) (Some (commodMarket (out_commod r))).

(** The statics a call of [loadConstructor] leaves behind. *)
Definition statics_after (res : LoadResult) : ModelStatics :=
  match res with
  | LoadReturns _ st => st
  | LoadThrows _ st => st
  end.

(** The deliveries made for [orders], in this order, one manifest
    each. *)
Definition shipments (orders : list Message)
    (manifests : list (list Material)) : list Event :=
  map (fun om => Delivered (getRequesterID (fst om)) (getTrans (fst om))
                   (snd om))
      (combine orders manifests).

(** Every material of a container holds a quantity that is not
    negative (the spec's [total_quantity() >= 0]). *)
Definition nonneg (l : list Material) : Prop :=
  Forall (fun m => 0 <= totMass m) l.

(** Every quantity [handleTick] computes is [exact]: the running totals
    of [checkInventory] and [checkStocks] (quantities that are not
    negative, up to an [exact] total), [inventory_size - inv], [space],
    [capacity - sto] and [possInv]. *)
Definition exact_tick (r : RecipeReactor) : Prop :=
  nonneg (inventory r) /\ nonneg (stocks r)
  /\ exact_all (inventory r) /\ exact_all (stocks r)
  /\ exact (sumMass (inventory r)) /\ exact (sumMass (stocks r))
  /\ exact (inventory_size r) /\ exact (capacity r)
  /\ exact (inventory_size r - checkInventory r)
  /\ exact (free_space r)
  /\ exact (capacity r - checkStocks r)
  /\ exact (checkInventory r + capacity r).

(** Same units, same name, same quantity. *)
Definition same_material (a b : Material) : Prop :=
  matUnits a = matUnits b /\ matName a = matName b
  /\ totMass a == totMass b.

(** [manifest] and [inv'] come from [inv] by moving whole materials off
    the front and splitting at most the next one: the first [k]
    materials of [inv] are in the manifest, in order; then either
    nothing else is, and [inv'] is the rest, or one more piece is, cut
    from the front [m] of the rest so that the moved quantity is [need]
    in all, and [inv'] starts with what is left of [m]. *)
Definition split_or_take (need : Mass) (inv manifest inv' : list Material)
  : Prop :=
  exists k : nat,
    (k <= List.length inv)%nat
    /\ Forall2 same_material (firstn k manifest) (firstn k inv)
    /\ ((skipn k manifest = [] /\ inv' = skipn k inv)
        \/ (exists piece m m' rest,
              skipn k manifest = [piece]
              /\ skipn k inv = m :: rest
              /\ inv' = m' :: rest
              /\ matUnits piece = matUnits m /\ matName piece = matName m
              /\ matUnits m' = matUnits m /\ matName m' = matName m
              /\ totMass piece == need - sumMass (firstn k inv)
              /\ 0 < totMass piece < totMass m
              /\ totMass m' == totMass m - totMass piece)).

(** The bound of the spec: quantities are not negative and
    [sum(inventory) + sum(stocks)] does not exceed [inventory_size]. *)
Definition within_cap (r : RecipeReactor) : Prop :=
  nonneg (inventory r) /\ nonneg (stocks r)
  /\ sumMass (inventory r) + sumMass (stocks r) <= inventory_size r.

(** From [r] to [r']: the bound [inventory_size] is the same, the
    quantities stay non-negative, and [sum(inventory) + sum(stocks)] has
    not grown. *)
Definition never_more (r r' : RecipeReactor) : Prop :=
  inventory_size r' = inventory_size r
  /\ (nonneg (inventory r) -> nonneg (stocks r) ->
      nonneg (inventory r') /\ nonneg (stocks r')
      /\ sumMass (inventory r') + sumMass (stocks r')
           <= sumMass (inventory r) + sumMass (stocks r)).

(** A delivery that fits: its quantities are not negative and their
    total is at most the free space at the time of the call.  Every
    other call is unconstrained. *)
Definition fits (c : Call) (s : Sim) : Prop :=
  match c with
  | CallReceiveMaterial _ manifest =>
      nonneg manifest /\ sumMass manifest <= free_space (self s)
  | _ => True
  end.

(** The states the facility goes through from [s0] when every delivery
    it receives fits. *)
Inductive reachable (s0 : Sim) : Sim -> Prop :=
| reach_start : reachable s0 s0
| reach_call (s s' : Sim) (c : Call) :
    reachable s0 s -> fits c s -> state_after (run c s) = Some s' ->
    reachable s0 s'.

(* ================================================================== *)
(** ** Concrete scenarios *)

Definition commodU : Commodity := mkCommodity "U" 7%nat.
Definition commodFuel : Commodity := mkCommodity "fuel" 8%nat.

Definition kg (q : Mass) : Material := mkMaterial "kg" "mat" q.

(** Free space 5, below the monthly capacity 10, with 8 already in
    stocks. *)
Definition reactor_space5 : RecipeReactor :=
  mkRecipeReactor 1%nat commodU commodFuel 13 10 [] [kg 8] [].

(** Plenty of free space, and stocks that already hold one month of
    capacity. *)
Definition reactor_stocked : RecipeReactor :=
  mkRecipeReactor 1%nat commodU commodFuel 100 10 [] [kg 10] [].

(** Plenty of free space, and stocks above one month of capacity. *)
Definition reactor_overstocked : RecipeReactor :=
  mkRecipeReactor 1%nat commodU commodFuel 100 10 [] [kg 15] [].

(** Spec scenario 4, "Split resource". *)
Definition reactor_split : RecipeReactor :=
  mkRecipeReactor 1%nat commodU commodFuel 100 10 [kg 30; kg 50] [] [].

(** An empty facility with room for 10. *)
Definition reactor_empty : RecipeReactor :=
  mkRecipeReactor 1%nat commodU commodFuel 10 10 [] [] [].

(** An order for [a] of the output commodity, supplier 1, requester 2. *)
Definition order_tx (a : Mass) : Transaction :=
  mkTransaction commodFuel a 0 0 None (Some 1%nat) (Some 2%nat).

(** A delivery of [a] of the input commodity to facility 1. *)
Definition delivery_tx (a : Mass) : Transaction :=
  mkTransaction commodU a 0 0 None (Some 3%nat) (Some 1%nat).

Definition order_msg (a : Mass) : Message :=
  mkMessage DOWN_MSG (order_tx a) 2%nat (Some 8%nat) [] (Some 1%nat) None.

(** A request of facility 1 that went up to institution 2 and is about
    to be sent back to facility 1. *)
Definition msg_circular : Message :=
  mkMessage UP_MSG (mkTransaction commodU (-5) 0 0 None None None)
    1%nat (Some 7%nat) [1%nat] (Some 2%nat) (Some 1%nat).

(** A cleared message on its way down, two stops from its originator,
    and the same message once it is back. *)
Definition msg_down : Message :=
  mkMessage DOWN_MSG (order_tx 40) 1%nat (Some 8%nat) [2%nat; 1%nat]
    (Some 3%nat) None.

Definition msg_done : Message :=
  mkMessage NONE_MSG (order_tx 40) 1%nat (Some 8%nat) [] (Some 1%nat) None.

(** The hops of a message that starts at [h] and is received by the
    agents of [l] in turn. *)
Fixpoint edges (h : AgentId) (l : list AgentId) : list Hop :=
  match l with
  | [] => []
  | a :: l' => mkHop (Some h) a :: edges a l'
  end.

Definition env_unset : Environ := fun _ => None.
Definition env_blank : Environ := fun _ => Some EmptyString.
Definition env_set : Environ := fun _ => Some "/opt/cyclus"%string.

(** A dynamic linker that knows one library, with both factories, and
    one whose library lacks the [destruct] factory. *)
Definition linker_ok : Linker :=
  mkLinker
    (fun file =>
       if String.eqb file "/opt/cyclus/Models/Facility/libRecipeReactor.so"
       then Some 1%nat else None)
    (fun _ symbol =>
       if String.eqb symbol "construct" then Some 100%nat
       else if String.eqb symbol "destruct" then Some 101%nat
       else None)
    (fun _ => "undefined symbol"%string).

Definition linker_no_destruct : Linker :=
  mkLinker
    (fun file =>
       if String.eqb file "/opt/cyclus/Models/Facility/libRecipeReactor.so"
       then Some 1%nat else None)
    (fun _ symbol =>
       if String.eqb symbol "construct" then Some 100%nat else None)
    (fun _ => "undefined symbol"%string).

Definition statics_empty : ModelStatics := mkModelStatics [] [] [].

(** The file of the model RecipeReactor under /opt/cyclus. *)
Definition reactor_library : string :=
  library_file "/opt/cyclus" ".so" "Facility" "RecipeReactor".

(* ================================================================== *)
(** * Properties *)

(** ** Comparisons on masses *)

Lemma mass_le_iff (x y : Mass) : mass_le x y = true <-> x <= y.
Proof. apply Qle_bool_iff. Qed.

Lemma mass_le_false (x y : Mass) : mass_le x y = false <-> y < x.
Proof.
  unfold mass_le. split; intro H.
  - apply Qnot_le_lt. intro L. apply Qle_bool_iff in L. congruence.
  - destruct (Qle_bool x y) eqn:E; [|reflexivity].
    apply Qle_bool_iff in E. exfalso. apply (Qlt_not_le _ _ H E).
Qed.

Lemma mass_lt_iff (x y : Mass) : mass_lt x y = true <-> x < y.
Proof.
  unfold mass_lt. rewrite negb_true_iff. apply (mass_le_false y x).
Qed.

Lemma mass_lt_false (x y : Mass) : mass_lt x y = false <-> y <= x.
Proof.
  unfold mass_lt. rewrite negb_false_iff. apply Qle_bool_iff.
Qed.

Lemma mass_eq_iff (x y : Mass) : mass_eq x y = true <-> x == y.
Proof. apply Qeq_bool_iff. Qed.

Lemma mass_eq_false (x y : Mass) : mass_eq x y = false <-> ~ x == y.
Proof.
  unfold mass_eq. split; intro H.
  - intro E. apply Qeq_bool_iff in E. congruence.
  - destruct (Qeq_bool x y) eqn:E; [|reflexivity].
    apply Qeq_bool_iff in E. contradiction.
Qed.

(** Turns every test on masses in the context into its proposition. *)
Ltac mass_props :=
  repeat match goal with
  | H : mass_le _ _ = true |- _ => apply mass_le_iff in H
  | H : mass_le _ _ = false |- _ => apply mass_le_false in H
  | H : mass_lt _ _ = true |- _ => apply mass_lt_iff in H
  | H : mass_lt _ _ = false |- _ => apply mass_lt_false in H
  | H : mass_gt _ _ = true |- _ => unfold mass_gt in H
  | H : mass_gt _ _ = false |- _ => unfold mass_gt in H
  | H : mass_ge _ _ = true |- _ => unfold mass_ge in H
  | H : mass_ge _ _ = false |- _ => unfold mass_ge in H
  | H : mass_eq _ _ = true |- _ => apply mass_eq_iff in H
  | H : mass_eq _ _ = false |- _ => apply mass_eq_false in H
  end.

(* ------------------------------------------------------------------ *)
(** ** receiveMessage *)

(** An order of which this facility is the supplier is filed in front
    of [ordersWaiting]. *)
Lemma receiveMessage_supplier (msg : Message) (s : Sim) :
  getSupplierID msg = Some (SN (self s)) ->
  receiveMessage msg s =
    Ok tt (mkSim (set_ordersWaiting (self s) (msg :: ordersWaiting (self s)))
                 (trace s)).
Proof.
  intro H. unfold receiveMessage, bind, get_self, modify.
  rewrite H. now rewrite Nat.eqb_refl.
Qed.

(** C8. An order whose supplier is this facility is put in
    [ordersWaiting] (at the front) and nothing is thrown; any other
    message makes [receiveMessage] throw [NotSupplier] in an unchanged
    state, so [ordersWaiting] is as before. *)
Theorem receiveMessage_files_or_throws (msg : Message) (s : Sim) :
  (getSupplierID msg = Some (SN (self s)) ->
   receiveMessage msg s =
     Ok tt (mkSim (set_ordersWaiting (self s) (msg :: ordersWaiting (self s)))
                  (trace s)))
  /\
  (getSupplierID msg <> Some (SN (self s)) ->
   receiveMessage msg s = Throw NotSupplier s).
Proof.
  split; intro H.
  - now apply receiveMessage_supplier.
  - unfold receiveMessage, bind, get_self, modify, throw.
    destruct (getSupplierID msg) as [id|]; [|reflexivity].
    destruct (Nat.eqb id (SN (self s))) eqn:E; [|reflexivity].
    apply Nat.eqb_eq in E. subst id. contradiction.
Qed.

Lemma receiveMessage_files_or_throws_witness :
  receiveMessage (order_msg 40) (mkSim reactor_split []) =
    Ok tt (mkSim (set_ordersWaiting reactor_split [order_msg 40]) [])
  /\
  receiveMessage msg_circular (mkSim reactor_split []) =
    Throw NotSupplier (mkSim reactor_split []).
Proof.
  split.
  - apply (receiveMessage_files_or_throws (order_msg 40)
             (mkSim reactor_split [])). reflexivity.
  - apply (receiveMessage_files_or_throws msg_circular
             (mkSim reactor_split [])). discriminate.
Defined.

(* ------------------------------------------------------------------ *)
(** ** Env::checkEnv *)

(** A variable that is absent: [strlen] is applied to the null pointer
    before the pointer is tested. *)
Lemma checkEnv_unset (getenv : Environ) (varname : string) :
  getenv varname = None -> checkEnv getenv varname = Undefined.
Proof. intro H. unfold checkEnv. now rewrite H. Qed.

(** A variable set to the empty string: the exception. *)
Lemma checkEnv_blank (getenv : Environ) (varname : string) :
  getenv varname = Some EmptyString ->
  checkEnv getenv varname =
    Throws ("Environment variable " ++ varname ++ " not set.").
Proof. intro H. unfold checkEnv. now rewrite H. Qed.

(** A variable set to a string that is not empty: that string. *)
Lemma checkEnv_set (getenv : Environ) (varname val : string) :
  getenv varname = Some val -> (0 < String.length val)%nat ->
  checkEnv getenv varname = Returns val.
Proof.
  intros H L. unfold checkEnv, strlen. rewrite H.
  apply Nat.ltb_lt in L. now rewrite L.
Qed.

(** [checkEnv] returns only a value of positive length, the one the
    variable is set to. *)
Lemma checkEnv_returns_inv (getenv : Environ) (varname val : string) :
  checkEnv getenv varname = Returns val ->
  getenv varname = Some val /\ (0 < String.length val)%nat.
Proof.
  unfold checkEnv, strlen. destruct (getenv varname) as [v|]; [|discriminate].
  destruct (Nat.ltb 0 (String.length v)) eqn:L; cbn [andb]; [|discriminate].
  intro H. injection H as ->. split; [reflexivity|now apply Nat.ltb_lt].
Qed.

(** [checkEnv] throws exactly when the variable is set to the empty
    string. *)
Lemma checkEnv_throws_iff (getenv : Environ) (varname : string) :
  (exists msg, checkEnv getenv varname = Throws msg) <->
  getenv varname = Some EmptyString.
Proof.
  split.
  - intros [msg H]. unfold checkEnv in H.
    destruct (getenv varname) as [v|]; cbn in H; [|discriminate].
    destruct v; [reflexivity|discriminate].
  - intro H. eexists. now apply checkEnv_blank.
Qed.

(** C6. With CYCLUS_PATH absent from the environment the call neither
    throws its exception nor returns: it applies [strlen] to a null
    pointer, which is undefined.  With the variable set to a string that
    is not empty the call returns that string. *)
Theorem checkEnv_absent_is_undefined :
  checkEnv env_unset "CYCLUS_PATH" = Undefined
  /\ (forall msg, checkEnv env_unset "CYCLUS_PATH" <> Throws msg)
  /\ checkEnv env_set "CYCLUS_PATH" = Returns "/opt/cyclus"%string.
Proof.
  repeat split. intros msg H. discriminate H.
Qed.

(** C10. The variable set to the empty string makes [checkEnv] throw
    "Environment variable CYCLUS_PATH not set.", and a value is returned
    only for a string of positive length; the absent variable does not
    reach the [throw]. *)
Theorem checkEnv_blank_throws_absent_does_not :
  checkEnv env_blank "CYCLUS_PATH" =
    Throws "Environment variable CYCLUS_PATH not set."
  /\ (forall getenv varname val,
        checkEnv getenv varname = Returns val ->
        getenv varname = Some val /\ (0 < String.length val)%nat)
  /\ ~ (exists msg, checkEnv env_unset "CYCLUS_PATH" = Throws msg).
Proof.
  split; [reflexivity|]. split.
  - intros getenv varname val. apply checkEnv_returns_inv.
  - intros [msg H]. discriminate H.
Qed.

(* ------------------------------------------------------------------ *)
(** ** sendOn: when it fails *)

(** The three failures of [sendOn] and nothing else. *)
Lemma sendOn_error_iff (m : Message) (e : MessageError) :
  sendOn m = inl e <->
  (dir_ m = UP_MSG /\ next_dest_ m = None /\ e = NoDestination)
  \/ (dir_ m = UP_MSG /\ e = Circular
      /\ exists d, next_dest_ m = Some d
                   /\ (d = sender_ m \/ current_owner_ m = Some d))
  \/ (dir_ m = NONE_MSG /\ e = TerminalMessage).
Proof.
  unfold sendOn, is_owner. split.
  - destruct (dir_ m).
    + destruct (next_dest_ m) as [d|].
      * destruct (Nat.eqb d (sender_ m)) eqn:E; cbn [orb].
        -- apply Nat.eqb_eq in E. intro H. injection H as <-.
           right. left. eauto 6.
        -- destruct (current_owner_ m) as [h|]; [|discriminate].
           destruct (Nat.eqb d h) eqn:E2; [|discriminate].
           apply Nat.eqb_eq in E2. subst h. intro H. injection H as <-.
           right. left. eauto 6.
      * intro H. injection H as <-. left. auto.
    + destruct (path_stack_ m); discriminate.
    + intro H. injection H as <-. right. right. auto.
  - intros [(D & N & Ee) | [(D & Ee & d & N & C) | (D & Ee)]];
      subst e; rewrite D.
    + now rewrite N.
    + rewrite N. destruct C as [-> | ->].
      * now rewrite Nat.eqb_refl.
      * rewrite Nat.eqb_refl. now rewrite orb_true_r.
    + reflexivity.
Qed.

(** A message going DOWN is always sent on. *)
Lemma sendOn_down_ok (m : Message) :
  dir_ m = DOWN_MSG -> exists m' to, sendOn m = inr (m', to).
Proof.
  intro D. unfold sendOn. rewrite D.
  destruct (path_stack_ m); eauto.
Qed.

(** The DOWN leg ends, in a message that is DONE. *)
Lemma downLeg_done (fuel : nat) (m m' : Message) (hops : list Hop) :
  downLeg fuel m = Some (inr (m', hops)) -> dir_ m' = NONE_MSG.
Proof.
  revert m m' hops. induction fuel as [|fuel IH]; intros m m' hops.
  - cbn. destruct (dir_ m) eqn:D; try discriminate.
    intro H. injection H as <- _. exact D.
  - cbn. destruct (dir_ m) eqn:D.
    + destruct (sendOn m) as [e|[m1 [to|]]]; try discriminate.
      * destruct (downLeg fuel m1) as [[e|[m2 hops2]]|] eqn:R;
          try discriminate.
        intro H. injection H as <- _. exact (IH _ _ _ R).
      * apply IH.
    + destruct (sendOn m) as [e|[m1 [to|]]]; try discriminate.
      * destruct (downLeg fuel m1) as [[e|[m2 hops2]]|] eqn:R;
          try discriminate.
        intro H. injection H as <- _. exact (IH _ _ _ R).
      * apply IH.
    + intro H. injection H as <- _. exact D.
Qed.

(** C5 (as section 4.1 has it). [sendOn] fails in exactly three situations:
    going UP with no next destination ([NoDestination]), going UP with
    the originator or the current holder as next destination
    ([Circular]), and on a terminal message ([TerminalMessage]).  A
    message driven to DONE by the DOWN leg fails with [TerminalMessage]
    on the next [sendOn]. *)
Theorem sendOn_fails_in_three_cases :
  (forall m e,
     sendOn m = inl e <->
     (dir_ m = UP_MSG /\ next_dest_ m = None /\ e = NoDestination)
     \/ (dir_ m = UP_MSG /\ e = Circular
         /\ exists d, next_dest_ m = Some d
                      /\ (d = sender_ m \/ current_owner_ m = Some d))
     \/ (dir_ m = NONE_MSG /\ e = TerminalMessage))
  /\
  (forall fuel m m' hops,
     downLeg fuel m = Some (inr (m', hops)) ->
     sendOn m' = inl TerminalMessage).
Proof.
  split.
  - apply sendOn_error_iff.
  - intros fuel m m' hops H. apply sendOn_error_iff.
    right. right. split; [|reflexivity]. exact (downLeg_done _ _ _ _ H).
Qed.

(** The claim as stated does not hold: a message going UP whose next
    destination is set, and which is not terminal, fails with
    [Circular]. *)
Lemma sendOn_circular_is_a_third_failure :
  sendOn msg_circular = inl Circular
  /\ ~ ((dir_ msg_circular = UP_MSG /\ next_dest_ msg_circular = None)
        \/ dir_ msg_circular = NONE_MSG).
Proof.
  split; [reflexivity|].
  intros [[_ H]|H]; discriminate H.
Qed.

Lemma sendOn_fails_in_three_cases_witness :
  downLeg 2 msg_down =
    Some (inr (msg_done, [mkHop (Some 3%nat) 2%nat; mkHop (Some 2%nat) 1%nat]))
  /\ sendOn msg_done = inl TerminalMessage.
Proof.
  split; [reflexivity|].
  apply (proj2 sendOn_fails_in_three_cases 2%nat msg_down msg_done
           [mkHop (Some 3%nat) 2%nat; mkHop (Some 2%nat) 1%nat]).
  reflexivity.
Defined.

(* ------------------------------------------------------------------ *)
(** ** The two legs of a message *)

Lemma edges_to (h : AgentId) (l : list AgentId) :
  map hop_to (edges h l) = l.
Proof.
  revert h. induction l as [|a l IH]; intro h; cbn; [reflexivity|].
  now rewrite IH.
Qed.

Lemma edges_from (h : AgentId) (l : list AgentId) :
  map hop_from (edges h l) = map Some (removelast (h :: l)).
Proof.
  revert h. induction l as [|a l IH]; intro h; [reflexivity|].
  cbn [edges map]. rewrite IH. reflexivity.
Qed.

Lemma last_cons_default (h d : AgentId) (l : list AgentId) :
  last (h :: l) d = last l h.
Proof.
  revert h d. induction l as [|a l IH]; intros h d; [reflexivity|].
  change (last (h :: a :: l) d) with (last (a :: l) d).
  rewrite IH. symmetry. apply (IH a).
Qed.

(** The stack of senders, read from the top, with the last receiver in
    front, is the UP route backwards. *)
Lemma removelast_route (h : AgentId) (l : list AgentId) :
  removelast (last l h :: rev (removelast (h :: l))) = rev l.
Proof.
  assert (E : h :: l = removelast (h :: l) ++ [last l h]).
  { rewrite <- (last_cons_default h h l).
    apply app_removelast_last. discriminate. }
  assert (R : rev (h :: l) = last l h :: rev (removelast (h :: l))).
  { rewrite E at 1. now rewrite rev_app_distr. }
  rewrite <- R. cbn [rev]. apply removelast_last.
Qed.

(** The UP leg: the hops made, the holder and the path stack at the
    last stop. *)
Lemma upLeg_spec (stops : list AgentId) :
  forall (m m1 : Message) (h : AgentId) (up : list Hop),
    dir_ m = UP_MSG -> current_owner_ m = Some h ->
    upLeg m stops = inr (m1, up) ->
    up = edges h stops
    /\ dir_ m1 = UP_MSG
    /\ current_owner_ m1 = Some (last stops h)
    /\ path_stack_ m1 = rev (removelast (h :: stops)) ++ path_stack_ m.
Proof.
  induction stops as [|a stops IH]; intros m m1 h up D O H.
  - cbn in H. injection H as <- <-. cbn. auto.
  - cbn [upLeg] in H. unfold setNextDest in H. rewrite D, O in H.
    destruct (Nat.eqb a h) eqn:Eh; [discriminate|].
    unfold sendOn, is_owner in H. cbn in H. rewrite Eh in H.
    destruct (Nat.eqb a (sender_ m)); [discriminate|]. cbn [orb] in H.
    match type of H with
    | context [upLeg ?m2 stops] =>
        destruct (upLeg m2 stops) as [e|[m3 hops]] eqn:R; [discriminate|];
        destruct (IH m2 m3 a hops eq_refl eq_refl R) as (E1 & E2 & E3 & E4)
    end.
    injection H as <- <-. subst hops. cbn [edges].
    split; [cbn; try rewrite O; reflexivity|]. split; [exact E2|]. split.
    + rewrite E3. now rewrite last_cons_default.
    + rewrite E4. cbn [path_stack_].
      change (removelast (h :: a :: stops))
        with (h :: removelast (a :: stops)).
      cbn [rev]. now rewrite <- app_assoc.
Qed.

(** The DOWN leg: the stack is popped to the bottom and the message
    ends DONE. *)
Lemma downLeg_spec (st : list AgentId) :
  forall (m : Message) (h : AgentId) (fuel : nat),
    dir_ m = DOWN_MSG -> current_owner_ m = Some h -> path_stack_ m = st ->
    (List.length st < fuel)%nat ->
    exists m2, downLeg fuel m = Some (inr (m2, edges h st))
               /\ dir_ m2 = NONE_MSG.
Proof.
  induction st as [|top rest IH]; intros m h fuel D O P F.
  - destruct fuel as [|fuel]; [cbn in F; lia|].
    cbn [downLeg]. rewrite D. unfold sendOn. rewrite D, P.
    destruct fuel; cbn; eexists; split; reflexivity.
  - destruct fuel as [|fuel]; [cbn in F; lia|].
    cbn [downLeg]. rewrite D. unfold sendOn. rewrite D, P.
    destruct rest as [|top' rest'].
    + destruct fuel; cbn; rewrite O; eexists; split; reflexivity.
    + match goal with
      | |- context [downLeg fuel ?m1] =>
          destruct (IH m1 top fuel eq_refl eq_refl eq_refl) as (m2 & R & D2);
            [cbn in F |- *; lia|]
      end.
      rewrite R. rewrite O. exists m2. split; [reflexivity|exact D2].
Qed.

(** C4. A message created UP by its originator, sent through any
    sequence of stops, flipped once and driven to DONE by repeated
    [sendOn]: the agents that receive it on the DOWN leg are the agents
    that sent it on the UP leg, in reverse order, and the DOWN hops are
    the UP hops backwards. *)
Theorem down_leg_retraces_up_leg
    (c : Commodity) (amt minAmt p : Mass) (originator : AgentId)
    (recipient : option AgentId)
    (stops : list AgentId) (m1 : Message) (up : list Hop) (fuel : nat) :
  upLeg (newMessage UP_MSG c amt minAmt p originator recipient) stops
    = inr (m1, up) ->
  (List.length stops < fuel)%nat ->
  exists m2 down,
    downLeg fuel (reverseDirection m1) = Some (inr (m2, down))
    /\ dir_ m2 = NONE_MSG
    /\ map (fun x => Some (hop_to x)) down = rev (map hop_from up)
    /\ map hop_from down = rev (map (fun x => Some (hop_to x)) up).
Proof.
  intros H F.
  destruct (upLeg_spec stops
              (newMessage UP_MSG c amt minAmt p originator recipient)
              m1 originator up eq_refl eq_refl H)
    as (-> & D & O & P).
  cbn in P. rewrite app_nil_r in P.
  destruct (downLeg_spec (rev (removelast (originator :: stops)))
              (reverseDirection m1) (last stops originator) fuel)
    as (m2 & R & D2).
  - unfold reverseDirection. cbn. now rewrite D.
  - exact O.
  - exact P.
  - rewrite length_rev.
    assert (L : List.length (removelast (originator :: stops)) = List.length stops).
    { clear. revert originator.
      induction stops as [|a l IH]; intro o; [reflexivity|].
      change (removelast (o :: a :: l)) with (o :: removelast (a :: l)).
      cbn [List.length]. now rewrite IH. }
    lia.
  - exists m2, (edges (last stops originator)
                  (rev (removelast (originator :: stops)))).
    split; [exact R|]. split; [exact D2|]. split.
    + rewrite <- (map_map hop_to Some). rewrite edges_to, edges_from.
      now rewrite map_rev.
    + rewrite edges_from. rewrite <- (map_map hop_to Some), edges_to.
      rewrite <- map_rev. f_equal. apply removelast_route.
Qed.

Lemma down_leg_retraces_up_leg_witness :
  exists m2 down,
    downLeg 4
      (reverseDirection
         (mkMessage UP_MSG (mkTransaction commodU (-5) 0 0 None None None)
            1%nat (Some 7%nat) [3%nat; 2%nat; 1%nat] (Some 7%nat) None))
      = Some (inr (m2, down))
    /\ dir_ m2 = NONE_MSG
    /\ map (fun x => Some (hop_to x)) down =
         rev (map hop_from (edges 1%nat [2%nat; 3%nat; 7%nat]))
    /\ map hop_from down =
         rev (map (fun x => Some (hop_to x))
                (edges 1%nat [2%nat; 3%nat; 7%nat])).
Proof.
  apply (down_leg_retraces_up_leg commodU (-5) 0 0 1%nat (Some 7%nat)
           [2%nat; 3%nat; 7%nat] _ _ 4%nat).
  - reflexivity.
  - cbn. lia.
Defined.

(* ------------------------------------------------------------------ *)
(** ** handleTick *)

(** What [handleTick] hands upwards: the request, if any, then the
    offer; the facility itself is left as it was. *)
Lemma handleTick_emits (time : nat) (s : Sim) :
  exists reqs offer,
    handleTick time s =
      Ok tt (mkSim (self s) (trace s ++ map SentUp (reqs ++ [offer])))
    /\ commod (trans_ offer) = out_commod (self s)
    /\ (free_space (self s) == 0 -> reqs = [])
    /\ (~ free_space (self s) == 0 ->
        exists requestAmt,
          reqs = [newMessage UP_MSG (in_commod (self s)) (- requestAmt) 0 0
                    (SN (self s)) (Some (commodMarket (in_commod (self s))))]
          /\ (free_space (self s) < capacity (self s) ->
              requestAmt = free_space (self s))
          /\ (capacity (self s) <= free_space (self s) ->
              requestAmt = capacity (self s) - checkStocks (self s))).
Proof.
  destruct s as [r tr]. cbn [self trace].
  unfold handleTick, bind, get_self, emit, ret. cbn [self trace].
  fold (free_space r).
  destruct (mass_eq (free_space r) 0) eqn:E0.
  - exists [], (newMessage UP_MSG (out_commod r)
                 (if mass_lt (checkInventory r + capacity r) (inventory_size r)
                  then checkInventory r + capacity r else inventory_size r)
                 0 0 (SN r) (Some (commodMarket (out_commod r)))).
    mass_props. cbn. split; [reflexivity|]. split; [reflexivity|].
    split; [reflexivity|]. intro N. contradiction.
  - destruct (mass_lt (free_space r) (capacity r)) eqn:E1.
    + eexists [_], _. cbn. rewrite <- app_assoc. cbn.
      split; [reflexivity|]. split; [reflexivity|]. mass_props.
      split; [intro Z; contradiction|]. intros _.
      eexists. split; [reflexivity|]. split; [reflexivity|].
      intro L. exfalso. apply (Qlt_not_le _ _ E1 L).
    + assert (G : mass_ge (free_space r) (capacity r) = true).
      { unfold mass_ge. apply mass_le_iff. now apply mass_lt_false. }
      rewrite G. eexists [_], _. cbn. rewrite <- app_assoc. cbn.
      split; [reflexivity|]. split; [reflexivity|]. mass_props.
      split; [intro Z; contradiction|]. intros _.
      eexists. split; [reflexivity|]. split; [|reflexivity].
      intro L. exfalso. apply (Qlt_not_le _ _ L E1).
Qed.

(** The request of [handleTick], branch by branch.  With [free_space =
    inventory_size - sum(inventory) - sum(stocks)]: no request when
    [free_space] is zero;
    otherwise exactly one request of the input commodity, at price 0 and
    minimum 0, with amount [- requestAmt] where [requestAmt] is
    [free_space] when [free_space < capacity] and [capacity - sum(stocks)]
    when [free_space >= capacity]. *)
Lemma handleTick_request_amount (time : nat) (s : Sim) :
  exists reqs offer,
    handleTick time s =
      Ok tt (mkSim (self s) (trace s ++ map SentUp (reqs ++ [offer])))
    /\ (free_space (self s) == 0 -> reqs = [])
    /\ (~ free_space (self s) == 0 ->
        exists req,
          reqs = [req]
          /\ dir_ req = UP_MSG
          /\ commod (trans_ req) = in_commod (self s)
          /\ price (trans_ req) = 0
          /\ min (trans_ req) = 0
          /\ (free_space (self s) < capacity (self s) ->
              amount (trans_ req) = - free_space (self s))
          /\ (capacity (self s) <= free_space (self s) ->
              amount (trans_ req) =
                - (capacity (self s) - checkStocks (self s)))).
Proof.
  destruct (handleTick_emits time s) as (reqs & offer & H & _ & Z & N).
  exists reqs, offer. split; [exact H|]. split; [exact Z|].
  intro NZ. destruct (N NZ) as (requestAmt & -> & A & B).
  eexists. split; [reflexivity|]. cbn.
  repeat (split; [reflexivity|]). split; intro L.
  - now rewrite (A L).
  - now rewrite (B L).
Qed.

Lemma handleTick_request_amount_witness :
  exists reqs offer,
    handleTick 0 (mkSim reactor_space5 []) =
      Ok tt (mkSim reactor_space5 (map SentUp (reqs ++ [offer])))
    /\ (free_space reactor_space5 == 0 -> reqs = [])
    /\ (~ free_space reactor_space5 == 0 ->
        exists req,
          reqs = [req]
          /\ dir_ req = UP_MSG
          /\ commod (trans_ req) = commodU
          /\ price (trans_ req) = 0
          /\ min (trans_ req) = 0
          /\ (free_space reactor_space5 < 10 ->
              amount (trans_ req) = - free_space reactor_space5)
          /\ (10 <= free_space reactor_space5 ->
              amount (trans_ req) = - (10 - checkStocks reactor_space5))).
Proof.
  exact (handleTick_request_amount 0 (mkSim reactor_space5 [])).
Defined.

(** C1. With free space 5, one month of capacity 10 and 8 in stocks,
    [handleTick] hands up a request for the free space, 5, and then its
    offer.  The header of the file ("send a request for your capacity
    minus your stocks") and [min(free_space, capacity - sum(stocks))]
    both give 2: when the free space is below one month of capacity the
    request does not take the stocks into account. *)
Theorem handleTick_request_ignores_stocks :
  handleTick 0 (mkSim reactor_space5 []) =
    Ok tt (mkSim reactor_space5
             [SentUp (newMessage UP_MSG commodU (-5) 0 0 1%nat (Some 7%nat));
              SentUp (newMessage UP_MSG commodFuel 10 0 0 1%nat
                        (Some 8%nat))])
  /\ free_space reactor_space5 == 5
  /\ capacity reactor_space5 - checkStocks reactor_space5 == 2
  /\ Qmin (free_space reactor_space5)
          (capacity reactor_space5 - checkStocks reactor_space5) == 2
  /\ ~ 5 == Qmin (free_space reactor_space5)
                 (capacity reactor_space5 - checkStocks reactor_space5).
Proof.
  split; [vm_compute; reflexivity|].
  split; [reflexivity|]. split; [reflexivity|]. split; [reflexivity|].
  intro H. vm_compute in H. discriminate H.
Qed.

(** The same run, through the magnitude of the request. *)
Lemma handleTick_request_is_not_the_minimum :
  exists req offer,
    handleTick 0 (mkSim reactor_space5 []) =
      Ok tt (mkSim reactor_space5 [SentUp req; SentUp offer])
    /\ Qabs (amount (trans_ req)) == 5
    /\ Qmin (free_space reactor_space5)
            (capacity reactor_space5 - checkStocks reactor_space5) == 2
    /\ ~ Qabs (amount (trans_ req)) ==
         Qmin (free_space reactor_space5)
              (capacity reactor_space5 - checkStocks reactor_space5).
Proof.
  eexists. eexists. split; [vm_compute; reflexivity|].
  split; [reflexivity|]. split; [reflexivity|].
  intro H. vm_compute in H. discriminate H.
Qed.

(** When there is room, and the room or the stocks are below one month
    of capacity, the request carries a negative amount. *)
Lemma handleTick_negative_when_room (time : nat) (s : Sim) :
  0 < free_space (self s) ->
  (free_space (self s) < capacity (self s)
   \/ checkStocks (self s) < capacity (self s)) ->
  exists req offer,
    handleTick time s =
      Ok tt (mkSim (self s) (trace s ++ [SentUp req; SentUp offer]))
    /\ amount (trans_ req) < 0.
Proof.
  intros P C.
  destruct (handleTick_emits time s) as (reqs & offer & H & _ & _ & N).
  assert (NZ : ~ free_space (self s) == 0).
  { intro Z. rewrite Z in P. apply (Qlt_irrefl _ P). }
  destruct (N NZ) as (requestAmt & -> & A & B).
  eexists. exists offer. split; [exact H|]. cbn [trans_ newMessage amount].
  destruct (Qlt_le_dec (free_space (self s)) (capacity (self s))) as [L|L].
  - rewrite (A L). lra.
  - rewrite (B L). destruct C as [C|C]; lra.
Qed.

(** C2. A request handed up by [handleTick] is not always negative:
    with stocks equal to one month of capacity the request carries
    amount 0, and with stocks above it the amount is positive. *)
Theorem handleTick_request_not_negative :
  (exists req offer,
     handleTick 0 (mkSim reactor_stocked []) =
       Ok tt (mkSim reactor_stocked [SentUp req; SentUp offer])
     /\ commod (trans_ req) = in_commod reactor_stocked
     /\ amount (trans_ req) == 0
     /\ ~ amount (trans_ req) < 0)
  /\
  (exists req offer,
     handleTick 0 (mkSim reactor_overstocked []) =
       Ok tt (mkSim reactor_overstocked [SentUp req; SentUp offer])
     /\ commod (trans_ req) = in_commod reactor_overstocked
     /\ amount (trans_ req) == 5
     /\ ~ amount (trans_ req) < 0).
Proof.
  split; eexists; eexists;
    (split; [vm_compute; reflexivity|]);
    (split; [reflexivity|]); (split; [reflexivity|]);
    intro H; vm_compute in H; discriminate H.
Qed.

(* ------------------------------------------------------------------ *)
(** ** sendMaterial *)

Lemma sumMass_nonneg (l : list Material) : nonneg l -> 0 <= sumMass l.
Proof.
  induction 1 as [|m l Hm _ IH]; cbn; lra.
Qed.

(** The accumulating loop of [checkInventory] and [checkStocks]
    computes the sum. *)
Lemma fold_left_sumMass (l : list Material) (total : Mass) :
  fold_left (fun total m => total + totMass m) l total == total + sumMass l.
Proof.
  revert total. induction l as [|m l IH]; intro total; cbn [fold_left sumMass].
  - lra.
  - rewrite IH. lra.
Qed.

Lemma checkInventory_sum (r : RecipeReactor) :
  checkInventory r == sumMass (inventory r).
Proof. unfold checkInventory. rewrite fold_left_sumMass. lra. Qed.

Lemma checkStocks_sum (r : RecipeReactor) :
  checkStocks r == sumMass (stocks r).
Proof. unfold checkStocks. rewrite fold_left_sumMass. lra. Qed.

Lemma free_space_sum (r : RecipeReactor) :
  free_space r == inventory_size r - sumMass (inventory r) - sumMass (stocks r).
Proof.
  unfold free_space. now rewrite checkInventory_sum, checkStocks_sum.
Qed.

Lemma sumMass_app (l1 l2 : list Material) :
  sumMass (l1 ++ l2) == sumMass l1 + sumMass l2.
Proof.
  induction l1 as [|m l1 IH]; cbn; [lra|]. rewrite IH. lra.
Qed.

(** Unfolds the material arithmetic, and nothing of [Q]. *)
Ltac msimpl :=
  unfold absorb, emptyMaterial in *;
  cbn [sumMass totMass matUnits matName fst snd firstn skipn app] in *.

(** Splits every [Qmin] and [Qmax] of the goal into its two cases. *)
Ltac qminmax :=
  repeat match goal with
  | |- context [Qmax ?a ?b] =>
      let H := fresh in
      destruct (Q.max_spec a b) as [[? H]|[? H]]; rewrite H in *; clear H
  | |- context [Qmin ?a ?b] =>
      let H := fresh in
      destruct (Q.min_spec a b) as [[? H]|[? H]]; rewrite H in *; clear H
  end; try lra.

Section SendMaterialLoop.

Variables (sn : AgentId) (ic oc : Commodity) (isz cap : Mass).
Variables (sto : list Material) (ord : list Message) (tr : list Event).
Variable trans : Transaction.

(** The facility with inventory [inv], everything else fixed. *)
Let st (inv : list Material) : Sim :=
  mkSim (mkRecipeReactor sn ic oc isz cap inv sto ord) tr.

(** The loop of [sendMaterial] ends within [length inventory + 2]
    rounds, without exception; what it moves is cut off the front of
    the inventory, nothing is lost, and the moved quantity is the need
    [amount - newAmt], as far as the inventory goes. *)
Lemma sendMaterial_loop_spec (inv : list Material) :
  forall (fuel : nat) (newAmt : Mass) (toSend : list Material),
    (S (List.length inv) < fuel)%nat ->
    exists manifest inv',
      sendMaterial_loop fuel trans newAmt toSend (st inv)
        = Ok (toSend ++ manifest) (st inv')
      /\ (List.length inv' <= List.length inv)%nat
      /\ sumMass manifest + sumMass inv' == sumMass inv
      /\ split_or_take (amount trans - newAmt) inv manifest inv'
      /\ (nonneg inv ->
          nonneg manifest /\ nonneg inv'
          /\ sumMass manifest ==
               Qmin (Qmax (amount trans - newAmt) 0) (sumMass inv)).
Proof.
  induction inv as [|m rest IH]; intros fuel newAmt toSend F.
  - destruct fuel as [|fuel]; [lia|].
    exists [], []. cbn [sendMaterial_loop]. unfold bind, get_self, ret, st.
    cbn [self inventory empty negb]. rewrite andb_false_r, app_nil_r.
    split; [reflexivity|]. split; [lia|]. split; [msimpl; lra|]. split.
    + exists 0%nat. cbn. split; [lia|]. split; [constructor|]. left. auto.
    + intros _. split; [constructor|]. split; [constructor|].
      msimpl. qminmax.
  - destruct fuel as [|fuel]; [lia|].
    cbn [sendMaterial_loop]. unfold bind at 1. unfold get_self, st.
    cbn [self inventory empty negb]. rewrite andb_true_r.
    destruct (mass_gt (amount trans) newAmt) eqn:G.
    + destruct (mass_le (totMass m) (amount trans - newAmt)) eqn:T.
      * (* the front material is moved whole *)
        unfold bind, modify. unfold set_inventory. cbn [self trace SN in_commod
          out_commod inventory_size capacity inventory stocks
          ordersWaiting].
        destruct (IH fuel (newAmt + totMass m)
                    (toSend ++
                     [fst (absorb (emptyMaterial (matUnits m) (matName m))
                             m)]))
          as (manifest & inv' & R & L & C & (k & Kl & Kf & Kt) & N).
        { cbn [List.length] in F. lia. }
        unfold st in R. rewrite R. rewrite <- app_assoc. cbn [app].
        eexists. exists inv'. split; [reflexivity|].
        mass_props.
        split; [cbn [List.length]; lia|].
        split; [msimpl; lra|]. split.
        -- exists (S k). cbn [firstn skipn List.length].
           split; [lia|]. split.
           ++ constructor; [|exact Kf]. unfold same_material. msimpl.
              repeat split. lra.
           ++ destruct Kt as [[K1 K2]|(piece & m1 & m' & rest' & K1 & K2
                & K3 & K4 & K5 & K6 & K7 & K8 & K9 & K10)].
              ** left. auto.
              ** right. exists piece, m1, m', rest'.
                 repeat (split; [assumption|]).
                 split; [|split; [exact K9|exact K10]].
                 rewrite K8. msimpl. lra.
        -- intro NN. inversion NN as [|? ? Hm Hrest]; subst.
           destruct (N Hrest) as (N1 & N2 & N3).
           split; [constructor; [msimpl; lra|exact N1]|].
           split; [exact N2|].
           msimpl. rewrite N3.
           pose proof (sumMass_nonneg rest Hrest). qminmax.
      * (* the front material is split *)
        mass_props.
        unfold extractMass.
        assert (E1 : mass_gt (amount trans - newAmt) (totMass m) = false).
        { unfold mass_gt. apply mass_lt_false. lra. }
        assert (E2 : mass_lt (amount trans - newAmt) 0 = false).
        { apply mass_lt_false. lra. }
        rewrite E1, E2. cbn [orb].
        destruct fuel as [|fuel]; [cbn [List.length] in F; lia|].
        unfold bind, modify. unfold set_inventory. cbn [self trace SN in_commod
          out_commod inventory_size capacity inventory stocks
          ordersWaiting sendMaterial_loop get_self empty negb totMass].
        assert (E3 : mass_gt (amount trans)
                       (newAmt + (amount trans - newAmt)) = false).
        { unfold mass_gt. apply mass_lt_false. lra. }
        unfold bind, get_self. cbn [self inventory].
        rewrite E3. cbn [andb]. unfold ret.
        eexists [_], (_ :: rest). split; [reflexivity|].
        split; [cbn [List.length]; lia|].
        split; [msimpl; lra|]. split.
        -- exists 0%nat. cbn [firstn skipn]. split; [lia|].
           split; [constructor|]. right.
           eexists _, m, _, rest. msimpl.
           repeat (split; [reflexivity|]).
           split; [msimpl; lra|]. split; [msimpl; lra|]. msimpl; lra.
        -- intro NN. inversion NN as [|? ? Hm Hrest]; subst.
           pose proof (sumMass_nonneg rest Hrest).
           split; [constructor; [msimpl; lra|constructor]|].
           split; [constructor; [msimpl; lra|exact Hrest]|].
           msimpl. qminmax.
    + (* nothing is needed *)
      mass_props. unfold ret.
      exists [], (m :: rest). rewrite app_nil_r.
      split; [reflexivity|]. split; [lia|].
      split; [msimpl; lra|]. split.
      * exists 0%nat. cbn. split; [lia|]. split; [constructor|].
        left. auto.
      * intro NN. pose proof (sumMass_nonneg _ NN) as P. msimpl.
        split; [constructor|]. split; [exact NN|]. msimpl. qminmax.
Qed.

End SendMaterialLoop.

Lemma split_or_take_need (need need' : Mass)
    (inv manifest inv' : list Material) :
  need == need' ->
  split_or_take need inv manifest inv' ->
  split_or_take need' inv manifest inv'.
Proof.
  intros E (k & Kl & Kf & Kt). exists k. split; [exact Kl|].
  split; [exact Kf|].
  destruct Kt as [K|(piece & m & m' & rest & K1 & K2 & K3 & K4 & K5 & K6
                     & K7 & K8 & K9)]; [left; exact K|].
  right. exists piece, m, m', rest.
  repeat (split; [assumption|]). split; [|exact K9].
  rewrite <- E. exact K8.
Qed.

(** [sendMaterial] for the output commodity returns, whatever the
    inventory holds: one delivery is made and the inventory does not
    grow. *)
Lemma sendMaterial_ok (fuel : nat) (trans : Transaction)
    (requester_ : option AgentId) (s : Sim) :
  commod trans = out_commod (self s) ->
  (S (List.length (inventory (self s))) < fuel)%nat ->
  exists manifest inv',
    sendMaterial fuel trans requester_ s =
      Ok tt (mkSim (set_inventory (self s) inv')
               (trace s ++ [Delivered (requester trans) trans manifest]))
    /\ (List.length inv' <= List.length (inventory (self s)))%nat
    /\ sumMass manifest + sumMass inv' == sumMass (inventory (self s))
    /\ split_or_take (amount trans) (inventory (self s)) manifest inv'
    /\ (nonneg (inventory (self s)) ->
        nonneg manifest /\ nonneg inv'
        /\ sumMass manifest ==
             Qmin (Qmax (amount trans) 0) (sumMass (inventory (self s)))).
Proof.
  destruct s as [[sn ic oc isz cap inv sto ord] tr].
  cbn [self trace inventory out_commod]. intros C F.
  destruct (sendMaterial_loop_spec sn ic oc isz cap sto ord tr trans inv
              fuel 0 [] F) as (manifest & inv' & R & L & S & P & N).
  exists manifest, inv'.
  unfold sendMaterial, bind, get_self. cbn [self out_commod].
  destruct (Commodity_eq_dec (commod trans) oc) as [_|X]; [|contradiction].
  rewrite R. cbn [app]. unfold emit. cbn [self trace].
  split; [reflexivity|]. split; [exact L|]. split; [exact S|]. split.
  - apply (split_or_take_need (amount trans - 0)); [lra|exact P].
  - intro NN. destruct (N NN) as (N1 & N2 & N3).
    split; [exact N1|]. split; [exact N2|]. rewrite N3.
    pose proof (sumMass_nonneg _ NN).
    destruct (Q.max_spec (amount trans - 0) 0) as [[? H1]|[? H1]];
      rewrite H1; qminmax.
Qed.

Lemma exact_Z (z : Z) :
  (Z.abs z <= 9007199254740992)%Z -> exact (inject_Z z).
Proof. intro H. exists z. split; [reflexivity|exact H]. Qed.

(** [exact] respects the equality of quantities. *)
Lemma exact_wd (q q' : Mass) : q == q' -> exact q -> exact q'.
Proof.
  intros E (z & H & B). exists z. split; [|exact B]. now rewrite <- E.
Qed.

(** An [exact] quantity lies within the bound. *)
Lemma exact_bounds (q : Mass) :
  exact q -> - 9007199254740992 <= q <= 9007199254740992.
Proof.
  intros (z & H & B). rewrite H.
  apply Z.abs_le in B. destruct B as [B1 B2].
  split.
  - change (- 9007199254740992) with (inject_Z (- 9007199254740992)).
    rewrite <- Zle_Qle. exact B1.
  - change 9007199254740992 with (inject_Z 9007199254740992).
    rewrite <- Zle_Qle. exact B2.
Qed.

(** The difference of two [exact] quantities is [exact] when it is
    within the bound. *)
Lemma exact_minus (a b : Mass) :
  exact a -> exact b ->
  - 9007199254740992 <= a - b <= 9007199254740992 ->
  exact (a - b).
Proof.
  intros (za & Ha & _) (zb & Hb & _) [L U].
  exists (za - zb)%Z.
  assert (E : a - b == inject_Z (za - zb)).
  { unfold Z.sub. rewrite inject_Z_plus, inject_Z_opp, Ha, Hb.
    reflexivity. }
  split; [exact E|].
  rewrite E in L, U.
  change (- 9007199254740992) with (inject_Z (- 9007199254740992)) in L.
  change 9007199254740992 with (inject_Z 9007199254740992) in U.
  rewrite <- Zle_Qle in L, U. apply Z.abs_le. split; assumption.
Qed.

(** The opposite of an [exact] quantity is [exact]. *)
Lemma exact_opp (a : Mass) : exact a -> exact (- a).
Proof.
  intros (z & H & B). exists (- z)%Z. split.
  - rewrite inject_Z_opp, H. reflexivity.
  - rewrite Z.abs_opp. exact B.
Qed.

(** The same for the sum. *)
Lemma exact_plus (a b : Mass) :
  exact a -> exact b ->
  - 9007199254740992 <= a + b <= 9007199254740992 ->
  exact (a + b).
Proof.
  intros (za & Ha & _) (zb & Hb & _) [L U].
  exists (za + zb)%Z.
  assert (E : a + b == inject_Z (za + zb)).
  { rewrite inject_Z_plus, Ha, Hb. reflexivity. }
  split; [exact E|].
  rewrite E in L, U.
  change (- 9007199254740992) with (inject_Z (- 9007199254740992)) in L.
  change 9007199254740992 with (inject_Z 9007199254740992) in U.
  rewrite <- Zle_Qle in L, U. apply Z.abs_le. split; assumption.
Qed.

Lemma Forall_firstn {A} (P : A -> Prop) (k : nat) (l : list A) :
  Forall P l -> Forall P (firstn k l).
Proof.
  revert k. induction l as [|x l IH]; intros k H.
  - rewrite firstn_nil. constructor.
  - inversion H; subst. destruct k; cbn; constructor; auto.
Qed.

Lemma Forall_skipn {A} (P : A -> Prop) (k : nat) (l : list A) :
  Forall P l -> Forall P (skipn k l).
Proof.
  revert k. induction l as [|x l IH]; intros k H.
  - rewrite skipn_nil. constructor.
  - inversion H; subst. destruct k; cbn; [constructor|]; auto.
Qed.

(** The running total of a loop over non-negative quantities stays
    below the container's total. *)
Lemma sumMass_firstn_le (k : nat) (l : list Material) :
  nonneg l -> 0 <= sumMass (firstn k l) <= sumMass l.
Proof.
  revert k. induction l as [|m l IH]; intros k NN.
  - rewrite firstn_nil. cbn. lra.
  - inversion NN as [|? ? Hm Hl]; subst.
    destruct k as [|k]; cbn [firstn sumMass].
    + pose proof (sumMass_nonneg l Hl). lra.
    + specialize (IH k Hl). lra.
Qed.

(** So every running total ([newAmt], [complete]) is [exact] when the
    container's total is. *)
Lemma exact_sumMass (l : list Material) :
  nonneg l -> exact_all l -> sumMass l <= 9007199254740992 ->
  exact (sumMass l).
Proof.
  induction l as [|m l IH]; intros NN EA U.
  - apply (exact_Z 0). lia.
  - inversion NN as [|? ? Hm Hl]; subst.
    inversion EA as [|? ? Em El]; subst.
    pose proof (sumMass_nonneg l Hl) as P. cbn [sumMass] in *.
    apply exact_plus; [exact Em| |lra].
    apply IH; try assumption. lra.
Qed.

Lemma exact_sum_firstn (k : nat) (l : list Material) :
  nonneg l -> exact_all l -> exact (sumMass l) ->
  exact (sumMass (firstn k l)).
Proof.
  intros NN EA ES. pose proof (exact_bounds _ ES) as [_ U].
  pose proof (sumMass_firstn_le k l NN) as [_ F].
  apply exact_sumMass.
  - apply Forall_firstn. exact NN.
  - apply Forall_firstn. exact EA.
  - lra.
Qed.

Lemma exact_all_same (l1 l2 : list Material) :
  Forall2 same_material l1 l2 -> exact_all l2 -> exact_all l1.
Proof.
  induction 1 as [|x y l1 l2 (_ & _ & E) _ IH]; intro EI; [constructor|].
  inversion EI as [|? ? Ey El]; subst. constructor.
  - apply (exact_wd (totMass y)); [now symmetry|exact Ey].
  - apply IH. exact El.
Qed.

(** Cutting [exact] quantities off the front of a container gives
    [exact] quantities again. *)
Lemma split_or_take_exact (need : Mass) (inv manifest inv' : list Material) :
  split_or_take need inv manifest inv' ->
  nonneg inv -> exact need -> exact_all inv -> exact (sumMass inv) ->
  exact_all manifest /\ exact_all inv'.
Proof.
  intros (k & Kl & Kf & Kt) NN EN EA ES.
  assert (EF : exact_all (firstn k manifest)).
  { apply (exact_all_same _ _ Kf). apply Forall_firstn. exact EA. }
  rewrite <- (firstn_skipn k manifest).
  destruct Kt as [[K1 ->]|(piece & m & m' & rest & K1 & K2 & -> & _ & _ & _
                          & _ & K8 & [K9 K10] & K11)].
  - rewrite K1, app_nil_r. split; [exact EF|].
    apply Forall_skipn. exact EA.
  - assert (ER : exact_all (m :: rest)).
    { rewrite <- K2. apply Forall_skipn. exact EA. }
    inversion ER as [|? ? Em Erest]; subst.
    pose proof (exact_bounds _ Em) as [_ Um].
    assert (EP : exact (totMass piece)).
    { apply (exact_wd (need - sumMass (firstn k inv))); [now symmetry|].
      apply exact_minus; [exact EN| |].
      - apply exact_sum_firstn; assumption.
      - rewrite <- K8. lra. }
    rewrite K1. split.
    + apply Forall_app. split; [exact EF|]. constructor; [exact EP|constructor].
    + constructor; [|exact Erest].
      apply (exact_wd (totMass m - totMass piece)); [now symmetry|].
      apply exact_minus; [exact Em|exact EP|lra].
Qed.

(** A container of non-negative [exact] quantities whose total is below
    an [exact] total has an [exact] total. *)
Lemma exact_below (l l' : list Material) :
  nonneg l' -> exact_all l' -> sumMass l' <= sumMass l ->
  exact (sumMass l) -> exact (sumMass l').
Proof.
  intros NN EA Le ES. pose proof (exact_bounds _ ES) as [_ U].
  apply exact_sumMass; [exact NN|exact EA|lra].
Qed.

(** C3 (as the code has it). [sendMaterial] for the output commodity,
    on an inventory of non-negative quantities, all quantities being
    [exact]: the call returns after one [receiveMaterial] on the
    requester named in the transaction; the manifest is cut off the
    front of the inventory, whole materials first and at most the last
    one split; its total is [min(max(amount, 0), sum(inventory))], so
    [min(amount, sum(inventory))] for an amount that is not negative and
    zero for a negative one; what is delivered and what stays in the
    inventory add up to what the inventory held; the delivery is made
    without exception also when the total is below the amount; and the
    quantities of the manifest and of what stays are [exact] again. *)
Theorem sendMaterial_manifest (fuel : nat) (trans : Transaction)
    (requester_ : option AgentId) (s : Sim) :
  commod trans = out_commod (self s) ->
  nonneg (inventory (self s)) ->
  exact (amount trans) ->
  exact_all (inventory (self s)) ->
  exact (sumMass (inventory (self s))) ->
  (S (List.length (inventory (self s))) < fuel)%nat ->
  exists manifest s',
    sendMaterial fuel trans requester_ s = Ok tt s'
    /\ trace s' = trace s ++ [Delivered (requester trans) trans manifest]
    /\ ordersWaiting (self s') = ordersWaiting (self s)
    /\ split_or_take (amount trans) (inventory (self s)) manifest
         (inventory (self s'))
    /\ sumMass manifest ==
         Qmin (Qmax (amount trans) 0) (sumMass (inventory (self s)))
    /\ (0 <= amount trans ->
        sumMass manifest ==
          Qmin (amount trans) (sumMass (inventory (self s))))
    /\ sumMass manifest + sumMass (inventory (self s'))
         == sumMass (inventory (self s))
    /\ exact_all manifest /\ exact_all (inventory (self s')).
Proof.
  intros C NN EN EA ES F.
  destruct (sendMaterial_ok fuel trans requester_ s C F)
    as (manifest & inv' & R & _ & S & P & N).
  destruct (N NN) as (NM & _ & T).
  exists manifest. eexists. split; [exact R|].
  cbn [self trace set_inventory inventory ordersWaiting].
  split; [reflexivity|]. split; [reflexivity|]. split; [exact P|].
  split; [exact T|]. pose proof (sumMass_nonneg _ NN) as P0.
  split; [|split; [exact S|]].
  - intro A. rewrite T.
    destruct (Q.max_spec (amount trans) 0) as [[? H1]|[? H1]];
      rewrite H1; qminmax.
  - exact (split_or_take_exact _ _ _ _ P NN EN EA ES).
Qed.

(** Spec scenario 4: inventory [30; 50], order for 40; the manifest is
    [30; 10] and [40] stays. *)
Lemma sendMaterial_manifest_witness :
  exists manifest s',
    sendMaterial 4 (order_tx 40) (Some 2%nat) (mkSim reactor_split [])
      = Ok tt s'
    /\ trace s' = [] ++ [Delivered (Some 2%nat) (order_tx 40) manifest]
    /\ ordersWaiting (self s') = []
    /\ split_or_take 40 [kg 30; kg 50] manifest (inventory (self s'))
    /\ sumMass manifest == Qmin (Qmax 40 0) (sumMass [kg 30; kg 50])
    /\ (0 <= 40 -> sumMass manifest == Qmin 40 (sumMass [kg 30; kg 50]))
    /\ sumMass manifest + sumMass (inventory (self s'))
         == sumMass [kg 30; kg 50]
    /\ exact_all manifest /\ exact_all (inventory (self s')).
Proof.
  apply (sendMaterial_manifest 4 (order_tx 40) (Some 2%nat)
           (mkSim reactor_split [])).
  - reflexivity.
  - repeat constructor; discriminate.
  - apply (exact_Z 40). lia.
  - repeat constructor; [apply (exact_Z 30)|apply (exact_Z 50)]; lia.
  - exists 80%Z. split; [reflexivity|lia].
  - cbn. lia.
Defined.

Example sendMaterial_split_resource :
  sendMaterial 4 (order_tx 40) (Some 2%nat) (mkSim reactor_split []) =
    Ok tt (mkSim (set_inventory reactor_split [kg 40])
             [Delivered (Some 2%nat) (order_tx 40) [kg 30; kg 10]]).
Proof. vm_compute. reflexivity. Qed.

(** The claim as stated does not hold for a negative amount: nothing is
    taken from a non-empty inventory, so the manifest's total is 0 and
    not [min(amount, sum(inventory))]. *)
Lemma sendMaterial_negative_amount_takes_nothing :
  commod (order_tx (-40)) = out_commod reactor_split
  /\ inventory reactor_split <> []
  /\ sendMaterial 4 (order_tx (-40)) (Some 2%nat) (mkSim reactor_split []) =
       Ok tt (mkSim reactor_split [Delivered (Some 2%nat) (order_tx (-40)) []])
  /\ ~ sumMass [] ==
       Qmin (amount (order_tx (-40))) (sumMass (inventory reactor_split)).
Proof.
  split; [reflexivity|]. split; [discriminate|].
  split; [vm_compute; reflexivity|].
  intro H. vm_compute in H. discriminate H.
Qed.

(* ------------------------------------------------------------------ *)
(** ** handleTock: processing the stocks *)

Section ProcessLoop.

Variables (sn : AgentId) (ic oc : Commodity) (isz cap : Mass).
Variables (ord : list Message) (tr : list Event).

(** The facility with inventory [inv] and stocks [sto], everything
    else fixed. *)
Let st (inv sto : list Material) : Sim :=
  mkSim (mkRecipeReactor sn ic oc isz cap inv sto ord) tr.

(** The processing loop ends within [length stocks + 2] rounds,
    without exception; what it appends to the inventory is cut off the
    front of the stocks, nothing is lost, and the processed quantity is
    the capacity left, [capacity - complete], as far as the stocks
    go. *)
Lemma process_loop_spec (sto : list Material) :
  forall (fuel : nat) (complete : Mass) (inv : list Material),
    (S (List.length sto) < fuel)%nat ->
    exists added sto',
      process_loop fuel complete (st inv sto) = Ok tt (st (inv ++ added) sto')
      /\ (List.length added <= List.length sto)%nat
      /\ (List.length sto' <= List.length sto)%nat
      /\ sumMass added + sumMass sto' == sumMass sto
      /\ split_or_take (cap - complete) sto added sto'
      /\ (nonneg sto ->
          nonneg added /\ nonneg sto'
          /\ sumMass added == Qmin (Qmax (cap - complete) 0) (sumMass sto)).
Proof.
  induction sto as [|m rest IH]; intros fuel complete inv F.
  - destruct fuel as [|fuel]; [lia|].
    exists [], []. cbn [process_loop]. unfold bind, get_self, ret, st.
    cbn [self stocks capacity empty negb].
    rewrite andb_false_r, app_nil_r.
    split; [reflexivity|]. split; [cbn; lia|]. split; [lia|].
    split; [msimpl; lra|]. split.
    + exists 0%nat. cbn. split; [lia|]. split; [constructor|]. left. auto.
    + intros _. split; [constructor|]. split; [constructor|].
      msimpl. qminmax.
  - destruct fuel as [|fuel]; [lia|].
    cbn [process_loop]. unfold bind at 1. unfold get_self, st.
    cbn [self stocks capacity empty negb]. rewrite andb_true_r.
    destruct (mass_gt cap complete) eqn:G.
    + destruct (mass_le (totMass m) (cap - complete)) eqn:T.
      * (* the front material is processed whole *)
        unfold bind, modify. unfold set_stocks, set_inventory.
        cbn [self trace SN in_commod out_commod inventory_size capacity
          inventory stocks ordersWaiting].
        destruct (IH fuel (complete + totMass m)
                    (inv ++
                     [fst (absorb (emptyMaterial (matUnits m) (matName m))
                             m)]))
          as (added & sto' & R & La & Ls & C & (k & Kl & Kf & Kt) & N).
        { cbn [List.length] in F. lia. }
        unfold st in R. rewrite R. rewrite <- app_assoc. cbn [app].
        eexists. exists sto'. split; [reflexivity|].
        mass_props.
        split; [cbn [List.length]; lia|].
        split; [cbn [List.length]; lia|].
        split; [msimpl; lra|]. split.
        -- exists (S k). cbn [firstn skipn List.length].
           split; [lia|]. split.
           ++ constructor; [|exact Kf]. unfold same_material. msimpl.
              repeat split. lra.
           ++ destruct Kt as [[K1 K2]|(piece & m1 & m' & rest' & K1 & K2
                & K3 & K4 & K5 & K6 & K7 & K8 & K9 & K10)].
              ** left. auto.
              ** right. exists piece, m1, m', rest'.
                 repeat (split; [assumption|]).
                 split; [|split; [exact K9|exact K10]].
                 rewrite K8. msimpl. lra.
        -- intro NN. inversion NN as [|? ? Hm Hrest]; subst.
           destruct (N Hrest) as (N1 & N2 & N3).
           split; [constructor; [msimpl; lra|exact N1]|].
           split; [exact N2|].
           msimpl. rewrite N3.
           pose proof (sumMass_nonneg rest Hrest). qminmax.
      * (* the front material is split *)
        mass_props.
        unfold extractMass.
        assert (E1 : mass_gt (cap - complete) (totMass m) = false).
        { unfold mass_gt. apply mass_lt_false. lra. }
        assert (E2 : mass_lt (cap - complete) 0 = false).
        { apply mass_lt_false. lra. }
        rewrite E1, E2. cbn [orb].
        destruct fuel as [|fuel]; [cbn [List.length] in F; lia|].
        unfold bind, modify. unfold set_stocks, set_inventory.
        cbn [self trace SN in_commod out_commod inventory_size capacity
          inventory stocks ordersWaiting process_loop totMass].
        assert (E3 : mass_gt cap (complete + (cap - complete)) = false).
        { unfold mass_gt. apply mass_lt_false. lra. }
        unfold bind, get_self. cbn [self stocks capacity].
        rewrite E3. cbn [andb]. unfold ret.
        eexists [_], (_ :: rest). split; [reflexivity|].
        split; [cbn [List.length]; lia|].
        split; [cbn [List.length]; lia|].
        split; [msimpl; lra|]. split.
        -- exists 0%nat. cbn [firstn skipn]. split; [lia|].
           split; [constructor|]. right.
           eexists _, m, _, rest. msimpl.
           repeat (split; [reflexivity|]).
           split; [msimpl; lra|]. split; [msimpl; lra|]. msimpl; lra.
        -- intro NN. inversion NN as [|? ? Hm Hrest]; subst.
           pose proof (sumMass_nonneg rest Hrest).
           split; [constructor; [msimpl; lra|constructor]|].
           split; [constructor; [msimpl; lra|exact Hrest]|].
           msimpl. qminmax.
    + (* the capacity is used up *)
      mass_props. unfold ret.
      exists [], (m :: rest). rewrite app_nil_r.
      split; [reflexivity|]. split; [cbn; lia|]. split; [lia|].
      split; [msimpl; lra|]. split.
      * exists 0%nat. cbn. split; [lia|]. split; [constructor|].
        left. auto.
      * intro NN. pose proof (sumMass_nonneg _ NN) as P. msimpl.
        split; [constructor|]. split; [exact NN|]. msimpl. qminmax.
Qed.

End ProcessLoop.

(* ------------------------------------------------------------------ *)
(** ** handleTock: shipping the orders *)

Section OrdersLoop.

Variables (sn : AgentId) (ic oc : Commodity) (isz cap : Mass).
Variable sto : list Material.

(** The facility with inventory [inv], waiting orders [ords] and
    calls [tr] made so far. *)
Let st (inv : list Material) (ords : list Message) (tr : list Event) : Sim :=
  mkSim (mkRecipeReactor sn ic oc isz cap inv sto ords) tr.

(** The orders are shipped from the front of [ordersWaiting] to its
    back, and the queue ends empty. *)
Lemma orders_loop_spec (ords : list Message) :
  forall (fuel : nat) (inv : list Material) (tr : list Event),
    Forall (fun o => commod (getTrans o) = oc) ords ->
    (List.length ords + List.length inv < fuel)%nat ->
    exists manifests inv',
      orders_loop fuel (st inv ords tr)
        = Ok tt (st inv' [] (tr ++ shipments ords manifests))
      /\ List.length manifests = List.length ords
      /\ (List.length inv' <= List.length inv)%nat.
Proof.
  induction ords as [|o rest IH]; intros fuel inv tr C F.
  - destruct fuel as [|fuel]; [lia|].
    exists [], inv. cbn. rewrite app_nil_r. auto.
  - destruct fuel as [|fuel]; [lia|].
    apply Forall_cons_iff in C. destruct C as [Co Crest].
    cbn [orders_loop]. unfold bind at 1. unfold get_self, st.
    cbn [self ordersWaiting empty negb]. unfold bind.
    destruct (sendMaterial_ok (S fuel) (getTrans o) (getRequesterID o)
                (st inv (o :: rest) tr))
      as (manifest & inv1 & R & L & _).
    { exact Co. }
    { cbn [st self inventory List.length] in *. lia. }
    unfold st in R, L. cbn [self inventory] in L. rewrite R. clear R.
    unfold modify, set_ordersWaiting, set_inventory.
    cbn [self trace SN in_commod out_commod inventory_size capacity
      inventory stocks ordersWaiting tl].
    destruct (IH fuel inv1
                (tr ++ [Delivered (requester (getTrans o)) (getTrans o)
                          manifest]) Crest)
      as (manifests & inv' & R & Lm & Li).
    { cbn [List.length] in *. lia. }
    unfold st in R. rewrite R.
    exists (manifest :: manifests), inv'.
    rewrite <- app_assoc. cbn [List.length].
    split; [reflexivity|]. split; lia.
Qed.

End OrdersLoop.

(** Orders of which this facility is the supplier pile up in
    [ordersWaiting], the last arrived in front. *)
Lemma receiveMessages_spec (msgs : list Message) :
  forall s : Sim,
    Forall (fun msg => getSupplierID msg = Some (SN (self s))) msgs ->
    receiveMessages msgs s =
      Ok tt (mkSim (set_ordersWaiting (self s)
                      (rev msgs ++ ordersWaiting (self s)))
                   (trace s)).
Proof.
  induction msgs as [|msg rest IH]; intros s H.
  - cbn. unfold ret. destruct s as [[] ?]. reflexivity.
  - inversion H as [|? ? Hm Hrest]; subst.
    cbn [receiveMessages]. unfold bind.
    rewrite (receiveMessage_supplier msg s Hm).
    rewrite IH; [|exact Hrest].
    cbn [self trace set_ordersWaiting SN in_commod out_commod
      inventory_size capacity inventory stocks ordersWaiting rev].
    unfold set_ordersWaiting. cbn. now rewrite <- app_assoc.
Qed.

(** C9. Orders received one after the other, each naming this facility
    as supplier of its output commodity, are shipped by [handleTock] in
    the reverse of their order of arrival: [receiveMessage] puts each in
    front of [ordersWaiting] and [handleTock] ships from the front. *)
Theorem handleTock_ships_latest_first (fuel time : nat)
    (msgs : list Message) (s : Sim) :
  ordersWaiting (self s) = [] ->
  Forall (fun msg => getSupplierID msg = Some (SN (self s))
                     /\ commod (getTrans msg) = out_commod (self s)) msgs ->
  (List.length msgs + List.length (inventory (self s))
   + List.length (stocks (self s)) + 1 < fuel)%nat ->
  exists s1 s2 manifests,
    receiveMessages msgs s = Ok tt s1
    /\ ordersWaiting (self s1) = rev msgs
    /\ handleTock fuel time s1 = Ok tt s2
    /\ ordersWaiting (self s2) = []
    /\ List.length manifests = List.length msgs
    /\ trace s2 = trace s ++ shipments (rev msgs) manifests.
Proof.
  intros E H F.
  assert (H1 : Forall (fun msg => getSupplierID msg = Some (SN (self s))) msgs).
  { eapply Forall_impl; [|exact H]. cbn. intros ? [? _]. assumption. }
  assert (H2 : Forall (fun o => commod (getTrans o) = out_commod (self s))
                 (rev msgs)).
  { apply Forall_rev. eapply Forall_impl; [|exact H]. cbn.
    intros ? [_ ?]. assumption. }
  pose proof (receiveMessages_spec msgs s H1) as R1.
  rewrite E, app_nil_r in R1.
  destruct s as [[sn ic oc isz cap inv sto ord] tr].
  unfold set_ordersWaiting in R1.
  cbn [self trace SN in_commod out_commod inventory_size
    capacity inventory stocks ordersWaiting] in *.
  destruct (process_loop_spec sn ic oc isz cap (rev msgs) tr sto fuel 0 inv)
    as (added & sto' & R & La & _); [lia|].
  destruct (orders_loop_spec sn ic oc isz cap sto' (rev msgs) fuel
              (inv ++ added) tr H2) as (manifests & inv' & R2 & Lm & _).
  { rewrite length_rev, length_app. lia. }
  eexists. eexists. exists manifests.
  split; [exact R1|]. split; [reflexivity|].
  unfold handleTock, bind. rewrite R, R2. cbn [self trace ordersWaiting].
  split; [reflexivity|]. split; [reflexivity|].
  split; [now rewrite Lm, length_rev|reflexivity].
Qed.

Lemma handleTock_ships_latest_first_witness :
  exists s1 s2 manifests,
    receiveMessages [order_msg 10; order_msg 60] (mkSim reactor_split [])
      = Ok tt s1
    /\ ordersWaiting (self s1) = rev [order_msg 10; order_msg 60]
    /\ handleTock 6 0 s1 = Ok tt s2
    /\ ordersWaiting (self s2) = []
    /\ List.length manifests = 2%nat
    /\ trace s2 = [] ++ shipments (rev [order_msg 10; order_msg 60]) manifests.
Proof.
  apply (handleTock_ships_latest_first 6 0 [order_msg 10; order_msg 60]
           (mkSim reactor_split [])).
  - reflexivity.
  - repeat constructor.
  - cbn. lia.
Defined.

(** Two orders, for 10 then for 60, on the inventory [30; 50]: the
    order for 60 is shipped first and gets [30; 30], the order for 10
    gets [10] of what is left. *)
Example handleTock_two_orders :
  bind (receiveMessages [order_msg 10; order_msg 60]) (fun _ => handleTock 6 0)
       (mkSim reactor_split [])
  = Ok tt (mkSim (set_inventory reactor_split [kg 10])
             [Delivered (Some 2%nat) (order_tx 60) [kg 30; kg 30];
              Delivered (Some 2%nat) (order_tx 10) [kg 10]]).
Proof. vm_compute. reflexivity. Qed.

(* ------------------------------------------------------------------ *)
(** ** A larger budget changes nothing *)

Lemma sendMaterial_loop_mono (fuel : nat) :
  forall (fuel' : nat) (trans : Transaction) (newAmt : Mass)
         (toSend : list Material) (s : Sim),
    (fuel <= fuel')%nat ->
    sendMaterial_loop fuel trans newAmt toSend s <> OutOfFuel ->
    sendMaterial_loop fuel' trans newAmt toSend s
      = sendMaterial_loop fuel trans newAmt toSend s.
Proof.
  induction fuel as [|fuel IH]; intros fuel' trans newAmt toSend s L N.
  - exfalso. apply N. reflexivity.
  - destruct fuel' as [|fuel']; [lia|].
    revert N. cbn [sendMaterial_loop]. unfold bind, get_self, modify.
    destruct (mass_gt (amount trans) newAmt && negb (empty (inventory (self s))));
      [|reflexivity].
    destruct (inventory (self s)) as [|m rest]; [reflexivity|].
    destruct (mass_le (totMass m) (amount trans - newAmt)).
    + intro N. apply IH; [lia|exact N].
    + destruct (extractMass m (amount trans - newAmt)) as [[toAbsorb m']|];
        [|reflexivity].
      intro N. apply IH; [lia|exact N].
Qed.

Lemma process_loop_mono (fuel : nat) :
  forall (fuel' : nat) (complete : Mass) (s : Sim),
    (fuel <= fuel')%nat ->
    process_loop fuel complete s <> OutOfFuel ->
    process_loop fuel' complete s = process_loop fuel complete s.
Proof.
  induction fuel as [|fuel IH]; intros fuel' complete s L N.
  - exfalso. apply N. reflexivity.
  - destruct fuel' as [|fuel']; [lia|].
    revert N. cbn [process_loop]. unfold bind, get_self, modify.
    destruct (mass_gt (capacity (self s)) complete
              && negb (empty (stocks (self s)))); [|reflexivity].
    destruct (stocks (self s)) as [|m rest]; [reflexivity|].
    destruct (mass_le (totMass m) (capacity (self s) - complete)).
    + intro N. apply IH; [lia|exact N].
    + destruct (extractMass m (capacity (self s) - complete))
        as [[toAbsorb m']|]; [|reflexivity].
      intro N. apply IH; [lia|exact N].
Qed.

(** With any budget, the loop of [sendMaterial] either runs out of it
    or ends as with a large one. *)
Lemma sendMaterial_loop_any_fuel (fuel : nat) (trans : Transaction)
    (newAmt : Mass) (toSend : list Material)
    (sn : AgentId) (ic oc : Commodity) (isz cap : Mass)
    (inv sto : list Material) (ord : list Message) (tr : list Event) :
  sendMaterial_loop fuel trans newAmt toSend
    (mkSim (mkRecipeReactor sn ic oc isz cap inv sto ord) tr) = OutOfFuel
  \/ exists manifest inv',
       sendMaterial_loop fuel trans newAmt toSend
         (mkSim (mkRecipeReactor sn ic oc isz cap inv sto ord) tr)
         = Ok (toSend ++ manifest)
              (mkSim (mkRecipeReactor sn ic oc isz cap inv' sto ord) tr)
       /\ sumMass manifest + sumMass inv' == sumMass inv
       /\ (nonneg inv -> nonneg manifest /\ nonneg inv').
Proof.
  destruct (sendMaterial_loop fuel trans newAmt toSend
              (mkSim (mkRecipeReactor sn ic oc isz cap inv sto ord) tr))
    as [man s1|e s1|] eqn:R; [right|right|left; reflexivity].
  - destruct (sendMaterial_loop_spec sn ic oc isz cap sto ord tr trans inv
                (fuel + S (S (S (List.length inv)))) newAmt toSend)
      as (manifest & inv' & R' & _ & C & _ & N); [lia|].
    rewrite (sendMaterial_loop_mono fuel) in R'; [|lia|congruence].
    rewrite R in R'. injection R' as -> ->.
    exists manifest, inv'. split; [reflexivity|]. split; [exact C|].
    intro NN. destruct (N NN) as (? & ? & _). auto.
  - destruct (sendMaterial_loop_spec sn ic oc isz cap sto ord tr trans inv
                (fuel + S (S (S (List.length inv)))) newAmt toSend)
      as (manifest & inv' & R' & _); [lia|].
    rewrite (sendMaterial_loop_mono fuel) in R'; [|lia|congruence].
    rewrite R in R'. discriminate R'.
Qed.

(** With any budget, the processing loop either runs out of it or ends
    as with a large one. *)
Lemma process_loop_any_fuel (fuel : nat) (complete : Mass)
    (sn : AgentId) (ic oc : Commodity) (isz cap : Mass)
    (inv sto : list Material) (ord : list Message) (tr : list Event) :
  process_loop fuel complete
    (mkSim (mkRecipeReactor sn ic oc isz cap inv sto ord) tr) = OutOfFuel
  \/ exists added sto',
       process_loop fuel complete
         (mkSim (mkRecipeReactor sn ic oc isz cap inv sto ord) tr)
         = Ok tt (mkSim (mkRecipeReactor sn ic oc isz cap (inv ++ added)
                           sto' ord) tr)
       /\ sumMass added + sumMass sto' == sumMass sto
       /\ (nonneg sto -> nonneg added /\ nonneg sto').
Proof.
  destruct (process_loop fuel complete
              (mkSim (mkRecipeReactor sn ic oc isz cap inv sto ord) tr))
    as [[] s1|e s1|] eqn:R; [right|right|left; reflexivity].
  - destruct (process_loop_spec sn ic oc isz cap ord tr sto
                (fuel + S (S (S (List.length sto)))) complete inv)
      as (added & sto' & R' & _ & _ & C & _ & N); [lia|].
    rewrite (process_loop_mono fuel) in R'; [|lia|congruence].
    rewrite R in R'. injection R' as ->.
    exists added, sto'. split; [reflexivity|]. split; [exact C|].
    intro NN. destruct (N NN) as (? & ? & _). auto.
  - destruct (process_loop_spec sn ic oc isz cap ord tr sto
                (fuel + S (S (S (List.length sto)))) complete inv)
      as (added & sto' & R' & _); [lia|].
    rewrite (process_loop_mono fuel) in R'; [|lia|congruence].
    rewrite R in R'. discriminate R'.
Qed.

(* ------------------------------------------------------------------ *)
(** ** The bound on inventory plus stocks *)

Lemma nonneg_app (l1 l2 : list Material) :
  nonneg (l1 ++ l2) <-> nonneg l1 /\ nonneg l2.
Proof. apply Forall_app. Qed.

Lemma never_more_refl (r : RecipeReactor) : never_more r r.
Proof.
  split; [reflexivity|]. intros ? ?. repeat split; try assumption. lra.
Qed.

Lemma never_more_trans (r1 r2 r3 : RecipeReactor) :
  never_more r1 r2 -> never_more r2 r3 -> never_more r1 r3.
Proof.
  intros [E1 H1] [E2 H2]. split; [congruence|]. intros A B.
  destruct (H1 A B) as (A2 & B2 & L2).
  destruct (H2 A2 B2) as (A3 & B3 & L3).
  repeat split; try assumption. lra.
Qed.

Lemma within_cap_never_more (r r' : RecipeReactor) :
  never_more r r' -> within_cap r -> within_cap r'.
Proof.
  intros [E H] (A & B & L). destruct (H A B) as (A' & B' & L').
  repeat split; try assumption. rewrite E. lra.
Qed.

(** [receiveMaterial] appends the manifest to the stocks. *)
Lemma receiveMaterial_spec (trans : Transaction) (manifest : list Material) :
  forall s : Sim,
    receiveMaterial trans manifest s =
      Ok tt (mkSim (set_stocks (self s) (stocks (self s) ++ manifest))
                   (trace s)).
Proof.
  induction manifest as [|m rest IH]; intro s.
  - cbn. unfold ret. rewrite app_nil_r. destruct s as [[] ?]. reflexivity.
  - cbn [receiveMaterial]. unfold bind, modify. rewrite IH.
    unfold set_stocks. cbn. now rewrite <- app_assoc.
Qed.

(** [sendMaterial] never adds to the facility, by return or by
    exception. *)
Lemma sendMaterial_never_more (fuel : nat) (trans : Transaction)
    (requester_ : option AgentId) (s s' : Sim) :
  state_after (sendMaterial fuel trans requester_ s) = Some s' ->
  never_more (self s) (self s')
  /\ stocks (self s') = stocks (self s)
  /\ ordersWaiting (self s') = ordersWaiting (self s).
Proof.
  destruct s as [[sn ic oc isz cap inv sto ord] tr].
  unfold sendMaterial, bind, get_self. cbn [self out_commod].
  destruct (Commodity_eq_dec (commod trans) oc) as [_|_].
  - destruct (sendMaterial_loop_any_fuel fuel trans 0 [] sn ic oc isz cap
                inv sto ord tr) as [R|(manifest & inv' & R & C & N)];
      rewrite R; [discriminate|].
    unfold emit. cbn. intro H. injection H as <-. cbn.
    split; [|split; reflexivity]. split; [reflexivity|]. cbn.
    intros A B. destruct (N A) as (N1 & N2).
    pose proof (sumMass_nonneg _ N1).
    repeat split; try assumption. lra.
  - unfold throw. cbn. intro H. injection H as <-.
    split; [apply never_more_refl|split; reflexivity].
Qed.

(** The processing loop moves quantities from the stocks to the
    inventory and adds nothing. *)
Lemma process_loop_never_more (fuel : nat) (complete : Mass) (s s' : Sim) :
  state_after (process_loop fuel complete s) = Some s' ->
  never_more (self s) (self s').
Proof.
  destruct s as [[sn ic oc isz cap inv sto ord] tr].
  destruct (process_loop_any_fuel fuel complete sn ic oc isz cap inv sto
              ord tr) as [R|(added & sto' & R & C & N)];
    rewrite R; [discriminate|].
  cbn. intro H. injection H as <-. split; [reflexivity|]. cbn.
  intros A B. destruct (N B) as (N1 & N2).
  split; [apply nonneg_app; auto|]. split; [exact N2|].
  rewrite sumMass_app. lra.
Qed.

(** Shipping the waiting orders adds nothing, also when one of them
    makes [sendMaterial] throw. *)
Lemma orders_loop_never_more (fuel : nat) :
  forall s s' : Sim,
    state_after (orders_loop fuel s) = Some s' ->
    never_more (self s) (self s').
Proof.
  induction fuel as [|fuel IH]; intros s s'; [discriminate|].
  cbn [orders_loop]. unfold bind at 1. unfold get_self.
  destruct (ordersWaiting (self s)) as [|order rest] eqn:E;
    cbn [empty negb].
  - unfold ret. cbn. intro H. injection H as <-. apply never_more_refl.
  - unfold bind.
    destruct (sendMaterial (S fuel) (getTrans order) (getRequesterID order) s)
      as [[] s1|e s1|] eqn:R; [| |discriminate].
    + destruct (sendMaterial_never_more (S fuel) (getTrans order)
                  (getRequesterID order) s s1) as (N1 & _ & _).
      { now rewrite R. }
      unfold modify. intro H. apply IH in H.
      apply (never_more_trans _ (self s1)); [exact N1|].
      apply (never_more_trans _ (set_ordersWaiting (self s1)
                                   (tl (ordersWaiting (self s1)))));
        [|exact H].
      split; [reflexivity|]. cbn. intros ? ?.
      repeat split; try assumption. lra.
    + cbn. intro H. injection H as <-.
      apply (sendMaterial_never_more (S fuel) (getTrans order)
               (getRequesterID order) s s1). now rewrite R.
Qed.

Lemma handleTock_never_more (fuel time : nat) (s s' : Sim) :
  state_after (handleTock fuel time s) = Some s' ->
  never_more (self s) (self s').
Proof.
  unfold handleTock, bind.
  destruct (process_loop fuel 0 s) as [[] s1|e s1|] eqn:R; [| |discriminate].
  - intro H. apply (never_more_trans _ (self s1)).
    + apply (process_loop_never_more fuel 0). now rewrite R.
    + apply (orders_loop_never_more fuel). exact H.
  - cbn. intro H. injection H as <-.
    apply (process_loop_never_more fuel 0). now rewrite R.
Qed.

(** Every call other than a delivery leaves [sum(inventory) +
    sum(stocks)] as it is or lower. *)
Lemma call_never_more (c : Call) (s s' : Sim) :
  (forall trans manifest, c <> CallReceiveMaterial trans manifest) ->
  state_after (run c s) = Some s' ->
  never_more (self s) (self s').
Proof.
  intro NR. destruct c as [time|fuel time|msg|fuel trans rq|trans manifest];
    cbn [run].
  - destruct (handleTick_emits time s) as (reqs & offer & H & _).
    rewrite H. cbn. intro E. injection E as <-. apply never_more_refl.
  - apply handleTock_never_more.
  - unfold receiveMessage, bind, get_self, modify, throw.
    destruct (getSupplierID msg) as [id|].
    + destruct (Nat.eqb id (SN (self s))); cbn; intro E; injection E as <-;
        [|apply never_more_refl].
      split; [reflexivity|]. cbn. intros ? ?.
      repeat split; try assumption. lra.
    + cbn. intro E. injection E as <-. apply never_more_refl.
  - intro H. apply (sendMaterial_never_more fuel trans rq s s' H).
  - exfalso. apply (NR trans manifest). reflexivity.
Qed.

(** A delivery on a facility within its bound: the bound is kept
    exactly when the delivery is not larger than the free space. *)
Lemma receiveMaterial_within_cap_iff (trans : Transaction)
    (manifest : list Material) (s : Sim) :
  within_cap (self s) -> nonneg manifest ->
  exists s',
    receiveMaterial trans manifest s = Ok tt s'
    /\ inventory (self s') = inventory (self s)
    /\ sumMass (stocks (self s')) ==
         sumMass (stocks (self s)) + sumMass manifest
    /\ (within_cap (self s') <-> sumMass manifest <= free_space (self s)).
Proof.
  intros (A & B & L) NM. eexists. split; [apply receiveMaterial_spec|].
  rewrite free_space_sum.
  destruct s as [[sn ic oc isz cap inv sto ord] tr].
  unfold within_cap, set_stocks.
  cbn [self inventory stocks inventory_size] in *.
  split; [reflexivity|]. split; [apply sumMass_app|].
  rewrite sumMass_app. split.
  - intros (_ & _ & L'). lra.
  - intro F. split; [exact A|]. split; [apply nonneg_app; auto|]. lra.
Qed.

(** The bound holds along every run in which the deliveries fit. *)
Lemma reachable_within_cap (s0 s : Sim) :
  within_cap (self s0) -> reachable s0 s -> within_cap (self s).
Proof.
  intros W R. induction R as [|s s' c R IH F H]; [exact W|].
  destruct c as [time|fuel time|msg|fuel trans rq|trans manifest].
  - apply (within_cap_never_more (self s)); [|exact IH].
    apply (call_never_more (CallTick time)); [discriminate|exact H].
  - apply (within_cap_never_more (self s)); [|exact IH].
    apply (call_never_more (CallTock fuel time)); [discriminate|exact H].
  - apply (within_cap_never_more (self s)); [|exact IH].
    apply (call_never_more (CallReceiveMessage msg)); [discriminate|exact H].
  - apply (within_cap_never_more (self s)); [|exact IH].
    apply (call_never_more (CallSendMaterial fuel trans rq));
      [discriminate|exact H].
  - destruct F as [NM F].
    destruct (receiveMaterial_within_cap_iff trans manifest s IH NM)
      as (s1 & E & _ & _ & K).
    cbn [run] in H. rewrite E in H. cbn in H. injection H as <-.
    apply K. exact F.
Qed.

(** C7 (as the code has it). [receiveMaterial] puts the whole manifest
    in the stocks, whatever its size.  The sum of inventory and stocks
    stays within [inventory_size] in every state reached through the
    facility's methods when each manifest received holds non-negative
    quantities that total at most the free space at that moment; and
    from such a state one more [receiveMaterial] keeps the bound exactly
    when its manifest's total is at most the free space. *)
Theorem within_cap_when_deliveries_fit (s0 s : Sim) (trans : Transaction)
    (manifest : list Material) :
  within_cap (self s0) -> reachable s0 s -> nonneg manifest ->
  within_cap (self s)
  /\ exists s',
       receiveMaterial trans manifest s = Ok tt s'
       /\ inventory (self s') = inventory (self s)
       /\ sumMass (stocks (self s')) ==
            sumMass (stocks (self s)) + sumMass manifest
       /\ (within_cap (self s') <-> sumMass manifest <= free_space (self s)).
Proof.
  intros W R NM. pose proof (reachable_within_cap s0 s W R) as Ws.
  split; [exact Ws|].
  exact (receiveMaterial_within_cap_iff trans manifest s Ws NM).
Qed.

Lemma within_cap_when_deliveries_fit_witness :
  within_cap (set_inventory reactor_empty [kg 4])
  /\ exists s',
       receiveMaterial (delivery_tx 6) [kg 6]
         (mkSim (set_inventory reactor_empty [kg 4]) []) = Ok tt s'
       /\ inventory (self s') = [kg 4]
       /\ sumMass (stocks (self s')) == sumMass [] + sumMass [kg 6]
       /\ (within_cap (self s') <->
           sumMass [kg 6] <= free_space (set_inventory reactor_empty [kg 4])).
Proof.
  apply (within_cap_when_deliveries_fit (mkSim reactor_empty [])
           (mkSim (set_inventory reactor_empty [kg 4]) [])
           (delivery_tx 6) [kg 6]).
  - repeat split; try constructor. discriminate.
  - apply (reach_call _ (mkSim (set_stocks reactor_empty [kg 4]) []) _
             (CallTock 5 0)).
    + apply (reach_call _ (mkSim reactor_empty []) _
               (CallReceiveMaterial (delivery_tx 4) [kg 4])).
      * apply reach_start.
      * split; [repeat constructor; discriminate|discriminate].
      * reflexivity.
    + exact I.
    + vm_compute. reflexivity.
  - repeat constructor. discriminate.
Defined.

(** The claim as stated does not hold: an empty facility with room for
    10 that is handed a manifest of 20 puts all of it in its stocks. *)
Lemma receiveMaterial_exceeds_cap :
  within_cap reactor_empty
  /\ receiveMaterial (delivery_tx 20) [kg 20] (mkSim reactor_empty []) =
       Ok tt (mkSim (set_stocks reactor_empty [kg 20]) [])
  /\ ~ sumMass (inventory (set_stocks reactor_empty [kg 20]))
       + sumMass (stocks (set_stocks reactor_empty [kg 20]))
       <= inventory_size (set_stocks reactor_empty [kg 20]).
Proof.
  split; [repeat split; try constructor; discriminate|].
  split; [reflexivity|].
  intro H. vm_compute in H. apply H. reflexivity.
Qed.

(* ================================================================== *)
(** * Further properties of the code *)

(** ** handleTick: the offer and the size of the request *)



(** [handleTick], message by message: the request, if any, with the
    quantity it asks for, then the offer. *)
Lemma handleTick_messages (time : nat) (s : Sim) :
  exists reqs,
    handleTick time s =
      Ok tt (mkSim (self s)
               (trace s ++ map SentUp (reqs ++ [offer_message (self s)])))
    /\ (free_space (self s) == 0 -> reqs = [])
    /\ (~ free_space (self s) == 0 ->
        exists requestAmt,
          reqs = [newMessage UP_MSG (in_commod (self s)) (- requestAmt) 0 0
                    (SN (self s)) (Some (commodMarket (in_commod (self s))))]
          /\ (free_space (self s) < capacity (self s) ->
              requestAmt = free_space (self s))
          /\ (capacity (self s) <= free_space (self s) ->
              requestAmt = capacity (self s) - checkStocks (self s))).
Proof.
  destruct s as [r tr]. cbn [self trace].
  unfold handleTick, bind, get_self, emit, ret, offer_message.
  cbn [self trace]. fold (free_space r).
  destruct (mass_eq (free_space r) 0) eqn:E0.
  - exists []. mass_props. cbn. split; [reflexivity|].
    split; [reflexivity|]. intro N. contradiction.
  - destruct (mass_lt (free_space r) (capacity r)) eqn:E1.
    + eexists [_]. cbn. rewrite <- app_assoc. cbn.
      split; [reflexivity|]. mass_props.
      split; [intro Z; contradiction|]. intros _.
      eexists. split; [reflexivity|]. split; [reflexivity|].
      intro L. exfalso. apply (Qlt_not_le _ _ E1 L).
    + assert (G : mass_ge (free_space r) (capacity r) = true).
      { unfold mass_ge. apply mass_le_iff. now apply mass_lt_false. }
      rewrite G. eexists [_]. cbn. rewrite <- app_assoc. cbn.
      split; [reflexivity|]. mass_props.
      split; [intro Z; contradiction|]. intros _.
      eexists. split; [reflexivity|]. split; [|reflexivity].
      intro L. exfalso. apply (Qlt_not_le _ _ L E1).
Qed.

(** X2. On quantities that are all [exact] and not negative, what
    [handleTick] hands up is at most one request and then the offer,
    nothing else; there is no request exactly when the free space is
    zero; the quantity requested is never more than the free space and
    is [exact] again; and the request is of the input commodity, sent by
    the facility and addressed to the market of that commodity. *)
Theorem handleTick_request_fits_space (time : nat) (s : Sim) :
  exact_tick (self s) ->
  exists reqs,
    handleTick time s =
      Ok tt (mkSim (self s)
               (trace s ++ map SentUp (reqs ++ [offer_message (self s)])))
    /\ (List.length reqs <= 1)%nat
    /\ (reqs = [] <-> free_space (self s) == 0)
    /\ Forall (fun req =>
                 - amount (trans_ req) <= free_space (self s)
                 /\ exact (amount (trans_ req))
                 /\ dir_ req = UP_MSG
                 /\ sender_ req = SN (self s)
                 /\ commod (trans_ req) = in_commod (self s)
                 /\ recipient_ req = Some (commodMarket (in_commod (self s))))
              reqs.
Proof.
  intros (_ & NS & _ & _ & _ & _ & _ & _ & _ & EF & EC & _).
  pose proof (sumMass_nonneg _ NS) as P.
  rewrite <- checkStocks_sum in P.
  destruct (handleTick_messages time s) as (reqs & H & Z & N).
  exists reqs. split; [exact H|].
  destruct (Qeq_dec (free_space (self s)) 0) as [E|E].
  - rewrite (Z E). split; [cbn; lia|].
    split; [split; [intros _; exact E|reflexivity]|constructor].
  - destruct (N E) as (requestAmt & -> & A & B).
    split; [cbn; lia|].
    split; [split; [discriminate|intro E'; contradiction]|].
    constructor; [|constructor].
    cbn [newMessage trans_ amount commod recipient_ dir_ sender_].
    destruct (Qlt_le_dec (free_space (self s)) (capacity (self s))) as [L|L].
    + rewrite (A L). split; [lra|].
      split; [apply exact_opp; exact EF|repeat split; reflexivity].
    + rewrite (B L). split; [lra|].
      split; [apply exact_opp; exact EC|repeat split; reflexivity].
Qed.

Lemma handleTick_request_fits_space_witness :
  exists reqs,
    handleTick 0 (mkSim reactor_space5 []) =
      Ok tt (mkSim reactor_space5
               ([] ++ map SentUp (reqs ++ [offer_message reactor_space5])))
    /\ (List.length reqs <= 1)%nat
    /\ (reqs = [] <-> free_space reactor_space5 == 0)
    /\ Forall (fun req =>
                 - amount (trans_ req) <= free_space reactor_space5
                 /\ exact (amount (trans_ req))
                 /\ dir_ req = UP_MSG
                 /\ sender_ req = 1%nat
                 /\ commod (trans_ req) = commodU
                 /\ recipient_ req = Some 7%nat)
              reqs.
Proof.
  apply (handleTick_request_fits_space 0 (mkSim reactor_space5 [])).
  unfold exact_tick.
  split; [constructor|].
  split; [repeat constructor; discriminate|].
  split; [constructor|].
  split; [repeat constructor; apply (exact_Z 8); lia|].
  split; [exists 0%Z; split; [reflexivity|lia]|].
  split; [exists 8%Z; split; [reflexivity|lia]|].
  split; [exists 13%Z; split; [reflexivity|lia]|].
  split; [exists 10%Z; split; [reflexivity|lia]|].
  split; [exists 13%Z; split; [reflexivity|lia]|].
  split; [exists 5%Z; split; [reflexivity|lia]|].
  split; [exists 2%Z; split; [reflexivity|lia]|].
  exists 10%Z; split; [reflexivity|lia].
Defined.

(* ------------------------------------------------------------------ *)
(** ** sendMaterial: exceptions, empty manifests, two calls in a row *)

(** X3. The only exception of [sendMaterial] is [CommodityMismatch]: it
    is thrown exactly when the transaction is not of the output
    commodity, before anything is touched or delivered; for the output
    commodity the call returns, whatever the inventory holds and
    whatever the amount is, within [length inventory + 2] rounds of its
    loop. *)
Theorem sendMaterial_throws_iff (fuel : nat) (trans : Transaction)
    (requester_ : option AgentId) (s : Sim) :
  (forall e s',
     sendMaterial fuel trans requester_ s = Throw e s' <->
     commod trans <> out_commod (self s) /\ e = CommodityMismatch /\ s' = s)
  /\ (commod trans = out_commod (self s) ->
      (S (List.length (inventory (self s))) < fuel)%nat ->
      exists s', sendMaterial fuel trans requester_ s = Ok tt s').
Proof.
  split.
  - intros e s'. destruct s as [[sn ic oc isz cap inv sto ord] tr].
    unfold sendMaterial, bind, get_self. cbn [self out_commod].
    destruct (Commodity_eq_dec (commod trans) oc) as [E|E].
    + split; [|intros [X _]; contradiction].
      destruct (sendMaterial_loop_any_fuel fuel trans 0 [] sn ic oc isz cap
                  inv sto ord tr) as [R|(manifest & inv' & R & _)];
        rewrite R; discriminate.
    + unfold throw. split.
      * intro H. injection H as <- <-. auto.
      * intros (_ & -> & ->). reflexivity.
  - intros C F.
    destruct (sendMaterial_ok fuel trans requester_ s C F)
      as (manifest & inv' & R & _).
    eexists. exact R.
Qed.

Lemma sendMaterial_throws_iff_witness :
  sendMaterial 4 (delivery_tx 40) None (mkSim reactor_split []) =
    Throw CommodityMismatch (mkSim reactor_split [])
  /\ exists s',
       sendMaterial 4 (order_tx 40) None (mkSim reactor_split []) = Ok tt s'.
Proof.
  split.
  - apply (proj1 (sendMaterial_throws_iff 4 (delivery_tx 40) None
                    (mkSim reactor_split []))).
    split; [discriminate|]. split; reflexivity.
  - apply (proj2 (sendMaterial_throws_iff 4 (order_tx 40) None
                    (mkSim reactor_split []))).
    + reflexivity.
    + cbn. lia.
Defined.

(** X4. An order for nothing, or for less than nothing, and any order
    on an empty inventory: [sendMaterial] still calls [receiveMaterial]
    on the requester named in the transaction, with an empty manifest,
    and leaves the facility as it is. *)
Theorem sendMaterial_empty_manifest (fuel : nat) (trans : Transaction)
    (requester_ : option AgentId) (s : Sim) :
  commod trans = out_commod (self s) ->
  amount trans <= 0 \/ inventory (self s) = [] ->
  (1 <= fuel)%nat ->
  sendMaterial fuel trans requester_ s =
    Ok tt (mkSim (self s) (trace s ++ [Delivered (requester trans) trans []])).
Proof.
  intros C E F. destruct fuel as [|fuel]; [lia|].
  unfold sendMaterial, bind, get_self.
  destruct (Commodity_eq_dec (commod trans) (out_commod (self s)))
    as [_|X]; [|contradiction].
  cbn [sendMaterial_loop]. unfold bind, get_self, ret, emit.
  destruct E as [E|E].
  - assert (G : mass_gt (amount trans) 0 = false).
    { unfold mass_gt. apply mass_lt_false. exact E. }
    rewrite G. reflexivity.
  - rewrite E. cbn [empty negb]. rewrite andb_false_r. reflexivity.
Qed.

Lemma sendMaterial_empty_manifest_witness :
  sendMaterial 1 (order_tx 0) None (mkSim reactor_split []) =
    Ok tt (mkSim reactor_split [Delivered (Some 2%nat) (order_tx 0) []]).
Proof.
  apply (sendMaterial_empty_manifest 1 (order_tx 0) None
           (mkSim reactor_split [])).
  - reflexivity.
  - left. discriminate.
  - lia.
Defined.

(** X5. Two orders shipped one after the other, for amounts [a1] and
    [a2] that are not negative, all quantities being [exact]: each
    order is delivered once, in this order; together the two get
    [min(a1 + a2, sum(inventory))]; what they get plus what stays in
    the inventory is what the inventory held; and all these quantities
    are [exact] again. *)
Theorem sendMaterial_twice (fuel : nat) (t1 t2 : Transaction)
    (rq1 rq2 : option AgentId) (s : Sim) :
  commod t1 = out_commod (self s) ->
  commod t2 = out_commod (self s) ->
  nonneg (inventory (self s)) ->
  0 <= amount t1 -> 0 <= amount t2 ->
  exact (amount t1) -> exact (amount t2) ->
  exact_all (inventory (self s)) ->
  exact (sumMass (inventory (self s))) ->
  (S (List.length (inventory (self s))) < fuel)%nat ->
  exists m1 m2 s',
    bind (sendMaterial fuel t1 rq1) (fun _ => sendMaterial fuel t2 rq2) s
      = Ok tt s'
    /\ trace s' = trace s ++ [Delivered (requester t1) t1 m1;
                              Delivered (requester t2) t2 m2]
    /\ sumMass m1 + sumMass m2 ==
         Qmin (amount t1 + amount t2) (sumMass (inventory (self s)))
    /\ sumMass m1 + sumMass m2 + sumMass (inventory (self s'))
         == sumMass (inventory (self s))
    /\ exact_all m1 /\ exact_all m2 /\ exact_all (inventory (self s')).
Proof.
  intros C1 C2 NN A1 A2 E1 E2 EA ES F.
  destruct (sendMaterial_ok fuel t1 rq1 s C1 F)
    as (m1 & inv1 & R1 & L1 & S1 & P1 & N1).
  destruct (N1 NN) as (NM1 & NN1 & T1).
  destruct (sendMaterial_ok fuel t2 rq2
              (mkSim (set_inventory (self s) inv1)
                 (trace s ++ [Delivered (requester t1) t1 m1])))
    as (m2 & inv2 & R2 & _ & S2 & P2 & N2).
  { exact C2. }
  { cbn. lia. }
  cbn [self trace set_inventory inventory] in R2, S2, P2, N2.
  destruct (N2 NN1) as (_ & _ & T2).
  destruct (split_or_take_exact _ _ _ _ P1 NN E1 EA ES) as [EM1 EI1].
  pose proof (sumMass_nonneg _ NM1) as PM1.
  assert (ES1 : exact (sumMass inv1))
    by (apply (exact_below (inventory (self s))); [assumption..|lra|exact ES]).
  destruct (split_or_take_exact _ _ _ _ P2 NN1 E2 EI1 ES1) as [EM2 EI2].
  exists m1, m2. eexists. unfold bind. rewrite R1, R2.
  split; [reflexivity|]. unfold set_inventory. cbn [self trace inventory].
  rewrite <- app_assoc. split; [reflexivity|].
  pose proof (sumMass_nonneg _ NN). pose proof (sumMass_nonneg _ NN1).
  split; [|split; [lra|repeat split; assumption]].
  rewrite T1, T2.
  assert (I1 : sumMass inv1 == sumMass (inventory (self s)) - sumMass m1)
    by lra.
  rewrite I1, T1.
  destruct (Q.max_spec (amount t1) 0) as [[? X1]|[? X1]]; rewrite X1;
    destruct (Q.max_spec (amount t2) 0) as [[? X2]|[? X2]]; rewrite X2;
    qminmax.
Qed.

Lemma sendMaterial_twice_witness :
  exists m1 m2 s',
    bind (sendMaterial 4 (order_tx 40) None)
         (fun _ => sendMaterial 4 (order_tx 60) None)
         (mkSim reactor_split []) = Ok tt s'
    /\ trace s' = [] ++ [Delivered (Some 2%nat) (order_tx 40) m1;
                         Delivered (Some 2%nat) (order_tx 60) m2]
    /\ sumMass m1 + sumMass m2 == Qmin (40 + 60) (sumMass [kg 30; kg 50])
    /\ sumMass m1 + sumMass m2 + sumMass (inventory (self s'))
         == sumMass [kg 30; kg 50]
    /\ exact_all m1 /\ exact_all m2 /\ exact_all (inventory (self s')).
Proof.
  apply (sendMaterial_twice 4 (order_tx 40) (order_tx 60) None None
           (mkSim reactor_split [])).
  - reflexivity.
  - reflexivity.
  - repeat constructor; discriminate.
  - discriminate.
  - discriminate.
  - apply (exact_Z 40). lia.
  - apply (exact_Z 60). lia.
  - repeat constructor; [apply (exact_Z 30)|apply (exact_Z 50)]; lia.
  - exists 80%Z. split; [reflexivity|lia].
  - cbn. lia.
Defined.

(* ------------------------------------------------------------------ *)
(** ** receiveMaterial: deliveries pile up in order *)

(** X6. [receiveMaterial] never throws and never looks at the
    transaction: the manifest goes to the back of the stocks in manifest
    order and nothing else changes, so two deliveries in a row are one
    delivery of the two manifests joined. *)
Theorem receiveMaterial_appends (t1 t2 t3 : Transaction)
    (m1 m2 : list Material) (s : Sim) :
  bind (receiveMaterial t1 m1) (fun _ => receiveMaterial t2 m2) s
    = receiveMaterial t3 (m1 ++ m2) s
  /\ receiveMaterial t3 (m1 ++ m2) s =
       Ok tt (mkSim (mkRecipeReactor (SN (self s)) (in_commod (self s))
                       (out_commod (self s)) (inventory_size (self s))
                       (capacity (self s)) (inventory (self s))
                       (stocks (self s) ++ m1 ++ m2)
                       (ordersWaiting (self s)))
                    (trace s)).
Proof.
  unfold bind. rewrite !receiveMaterial_spec.
  unfold set_stocks. cbn [self trace SN in_commod out_commod inventory_size
    capacity inventory stocks ordersWaiting].
  rewrite <- app_assoc. split; reflexivity.
Qed.

(* ------------------------------------------------------------------ *)
(** ** handleTock: what is processed, who is served, when it stops *)

Lemma Forall2_Qeq_trans (l1 l2 l3 : list Mass) :
  Forall2 Qeq l1 l2 -> Forall2 Qeq l2 l3 -> Forall2 Qeq l1 l3.
Proof.
  intro H. revert l3. induction H as [|x y l1 l2 E _ IH]; intros l3 H3.
  - inversion H3. constructor.
  - inversion H3 as [|? z ? l3' E3 H3']; subst. constructor.
    + now rewrite E.
    + apply IH. exact H3'.
Qed.

(** [served] depends on the quantity available, not on how it is
    written. *)
Lemma served_wd (amounts : list Mass) :
  forall avail avail' : Mass,
    avail == avail' ->
    Forall2 Qeq (served avail amounts) (served avail' amounts).
Proof.
  induction amounts as [|a rest IH]; intros avail avail' E; cbn [served].
  - constructor.
  - assert (T : Qmin (Qmax a 0) avail == Qmin (Qmax a 0) avail').
    { destruct (Q.max_spec a 0) as [[? X]|[? X]]; rewrite X;
        destruct (Q.min_spec 0 avail) as [[? Y]|[? Y]];
        destruct (Q.min_spec 0 avail') as [[? Y']|[? Y']];
        destruct (Q.min_spec a avail) as [[? W]|[? W]];
        destruct (Q.min_spec a avail') as [[? W']|[? W']]; lra. }
    constructor; [exact T|]. apply IH. rewrite T, E. reflexivity.
Qed.

Section OrdersRun.

Variables (sn : AgentId) (ic oc : Commodity) (isz cap : Mass).
Variable sto : list Material.

Let st (inv : list Material) (ords : list Message) (tr : list Event) : Sim :=
  mkSim (mkRecipeReactor sn ic oc isz cap inv sto ords) tr.

(** The shipping loop on a queue that starts with orders of the output
    commodity, [goods], followed by [rest]: the orders of [goods] are
    served in turn; then the loop returns if [rest] is empty, and throws
    if [rest] starts with an order of another commodity, which stays in
    the queue with all that follows it. *)
Lemma orders_loop_run (goods : list Message) :
  forall (fuel : nat) (inv : list Material) (tr : list Event)
         (rest : list Message),
    Forall (fun o => commod (getTrans o) = oc) goods ->
    match rest with
    | [] => True
    | bad :: _ => commod (getTrans bad) <> oc
    end ->
    (List.length goods + List.length inv < fuel)%nat ->
    exists manifests inv',
      orders_loop fuel (st inv (goods ++ rest) tr) =
        match rest with
        | [] => Ok tt (st inv' [] (tr ++ shipments goods manifests))
        | _ :: _ =>
            Throw CommodityMismatch
              (st inv' rest (tr ++ shipments goods manifests))
        end
      /\ List.length manifests = List.length goods
      /\ total (map sumMass manifests) + sumMass inv' == sumMass inv
      /\ (nonneg inv ->
          nonneg inv'
          /\ Forall2 Qeq (map sumMass manifests)
               (served (sumMass inv) (map getAmount goods))
          /\ (Forall (fun o => exact (getAmount o)) goods ->
              exact_all inv -> exact (sumMass inv) ->
              Forall exact_all manifests /\ exact_all inv')).
Proof.
  induction goods as [|o gs IH]; intros fuel inv tr rest C B F.
  - destruct fuel as [|fuel]; [lia|].
    exists [], inv. cbn [app shipments combine map List.length total served].
    rewrite app_nil_r.
    split; [|split; [reflexivity|split; [lra|]]].
    2:{ intro. split; [assumption|]. split; [constructor|].
        intros _ EA _. split; [constructor|exact EA]. }
    destruct rest as [|bad r]; [reflexivity|].
    cbn [orders_loop]. unfold bind at 1. unfold get_self, st.
    cbn [self ordersWaiting empty negb]. unfold bind at 1.
    unfold sendMaterial, bind, get_self. cbn [self out_commod].
    destruct (Commodity_eq_dec (commod (getTrans bad)) oc) as [X|_];
      [contradiction|reflexivity].
  - destruct fuel as [|fuel]; [lia|].
    apply Forall_cons_iff in C. destruct C as [Co Cgs].
    cbn [app orders_loop]. unfold bind at 1. unfold get_self, st.
    cbn [self ordersWaiting empty negb]. unfold bind.
    destruct (sendMaterial_ok (S fuel) (getTrans o) (getRequesterID o)
                (st inv (o :: gs ++ rest) tr))
      as (manifest & inv1 & R & L & S1 & P1 & N1).
    { exact Co. }
    { cbn [st self inventory List.length] in *. lia. }
    unfold st in R, L, S1, P1, N1. cbn [self inventory] in L, S1, P1, N1.
    rewrite R. clear R.
    unfold modify, set_ordersWaiting, set_inventory.
    cbn [self trace SN in_commod out_commod inventory_size capacity
      inventory stocks ordersWaiting tl].
    destruct (IH fuel inv1
                (tr ++ [Delivered (requester (getTrans o)) (getTrans o)
                          manifest]) rest Cgs B)
      as (manifests & inv' & R & Lm & S2 & N2).
    { cbn [List.length] in *. lia. }
    unfold st in R. rewrite R.
    exists (manifest :: manifests), inv'.
    cbn [shipments combine map fst snd List.length total].
    fold (shipments gs manifests).
    rewrite <- !app_assoc. cbn [app].
    split; [destruct rest; reflexivity|].
    split; [lia|]. split; [lra|].
    intro NN. destruct (N1 NN) as (NM1 & NN1 & T1).
    destruct (N2 NN1) as (NN' & T2 & X2).
    split; [exact NN'|]. split.
    + cbn [served]. unfold getAmount at 1 2.
      unfold getTrans in T1.
      constructor; [exact T1|].
      apply (Forall2_Qeq_trans _ _ _ T2). apply served_wd.
      rewrite <- T1. lra.
    + intros EG EA ES. apply Forall_cons_iff in EG. destruct EG as [Eo Egs].
      destruct (split_or_take_exact _ _ _ _ P1 NN Eo EA ES) as [EM EI1].
      pose proof (sumMass_nonneg _ NM1) as PM1.
      assert (ES1 : exact (sumMass inv1))
        by (apply (exact_below inv); [assumption..|lra|exact ES]).
      destruct (X2 Egs EI1 ES1) as [EMs EI'].
      split; [constructor; assumption|exact EI'].
Qed.

End OrdersRun.

Section ProcessAll.

Variables (sn : AgentId) (ic oc : Commodity) (isz cap : Mass).
Variables (ord : list Message) (tr : list Event).

Let st (inv sto : list Material) : Sim :=
  mkSim (mkRecipeReactor sn ic oc isz cap inv sto ord) tr.

(** Stocks that fit in the capacity left are processed to the last
    one, none of them split. *)
Lemma process_loop_all (sto : list Material) :
  forall (fuel : nat) (complete : Mass) (inv : list Material),
    (S (List.length sto) < fuel)%nat ->
    nonneg sto ->
    complete + sumMass sto < cap ->
    exists added,
      process_loop fuel complete (st inv sto) = Ok tt (st (inv ++ added) [])
      /\ Forall2 same_material added sto.
Proof.
  induction sto as [|m rest IH]; intros fuel complete inv F NN Lt.
  - destruct fuel as [|fuel]; [lia|].
    exists []. cbn [process_loop]. unfold bind, get_self, ret, st.
    cbn [self stocks capacity empty negb].
    rewrite andb_false_r, app_nil_r. split; [reflexivity|constructor].
  - destruct fuel as [|fuel]; [lia|].
    inversion NN as [|? ? Hm Hrest]; subst.
    pose proof (sumMass_nonneg rest Hrest) as P. msimpl.
    cbn [process_loop]. unfold bind at 1. unfold get_self, st.
    cbn [self stocks capacity empty negb]. rewrite andb_true_r.
    assert (G : mass_gt cap complete = true).
    { unfold mass_gt. apply mass_lt_iff. lra. }
    assert (T : mass_le (totMass m) (cap - complete) = true).
    { apply mass_le_iff. lra. }
    rewrite G, T.
    unfold bind, modify. unfold set_stocks, set_inventory.
    cbn [self trace SN in_commod out_commod inventory_size capacity
      inventory stocks ordersWaiting].
    destruct (IH fuel (complete + totMass m)
                (inv ++
                 [fst (absorb (emptyMaterial (matUnits m) (matName m)) m)]))
      as (added & R & S2).
    { cbn [List.length] in F. lia. }
    { exact Hrest. }
    { lra. }
    unfold st in R. rewrite R. rewrite <- app_assoc. cbn [app].
    eexists. split; [reflexivity|].
    constructor; [|exact S2]. unfold same_material. msimpl.
    repeat split. lra.
Qed.

End ProcessAll.

(** X7. With no order waiting and stocks of non-negative quantities,
    all quantities being [exact], [handleTock] only processes: it moves
    [min(max(capacity, 0), sum(stocks))] from the front of the stocks to
    the back of the inventory, whole materials first and at most the
    last one split, keeps what the inventory held in front, loses
    nothing, and makes no call on anyone; the quantities it leaves are
    [exact] again. *)
Theorem handleTock_processes (fuel time : nat) (s : Sim) :
  ordersWaiting (self s) = [] ->
  nonneg (stocks (self s)) ->
  exact (capacity (self s)) ->
  exact_all (stocks (self s)) ->
  exact (sumMass (stocks (self s))) ->
  (S (List.length (stocks (self s))) < fuel)%nat ->
  exists added sto',
    handleTock fuel time s =
      Ok tt (mkSim (mkRecipeReactor (SN (self s)) (in_commod (self s))
                      (out_commod (self s)) (inventory_size (self s))
                      (capacity (self s)) (inventory (self s) ++ added)
                      sto' [])
                   (trace s))
    /\ split_or_take (capacity (self s)) (stocks (self s)) added sto'
    /\ sumMass added ==
         Qmin (Qmax (capacity (self s)) 0) (sumMass (stocks (self s)))
    /\ sumMass added + sumMass sto' == sumMass (stocks (self s))
    /\ exact_all added /\ exact_all sto'.
Proof.
  destruct s as [[sn ic oc isz cap inv sto ord] tr].
  cbn [self trace SN in_commod out_commod inventory_size capacity inventory
    stocks ordersWaiting]. intros -> NN EC EA ES F.
  destruct (process_loop_spec sn ic oc isz cap [] tr sto fuel 0 inv F)
    as (added & sto' & R & _ & _ & C & P & N).
  destruct (N NN) as (_ & _ & T).
  assert (P' : split_or_take cap sto added sto')
    by (apply (split_or_take_need (cap - 0)); [lra|exact P]).
  exists added, sto'. unfold handleTock, bind. rewrite R.
  destruct fuel as [|fuel]; [lia|].
  split; [reflexivity|]. split; [exact P'|].
  split; [|split; [exact C|exact (split_or_take_exact _ _ _ _ P' NN EC EA ES)]].
  rewrite T.
  destruct (Q.max_spec (cap - 0) 0) as [[? H1]|[? H1]]; rewrite H1; qminmax.
Qed.

Lemma handleTock_processes_witness :
  exists added sto',
    handleTock 3 0 (mkSim reactor_overstocked []) =
      Ok tt (mkSim (mkRecipeReactor 1%nat commodU commodFuel 100 10
                      ([] ++ added) sto' [])
                   [])
    /\ split_or_take 10 [kg 15] added sto'
    /\ sumMass added == Qmin (Qmax 10 0) (sumMass [kg 15])
    /\ sumMass added + sumMass sto' == sumMass [kg 15]
    /\ exact_all added /\ exact_all sto'.
Proof.
  apply (handleTock_processes 3 0 (mkSim reactor_overstocked [])).
  - reflexivity.
  - repeat constructor. discriminate.
  - apply (exact_Z 10). lia.
  - repeat constructor. apply (exact_Z 15). lia.
  - exists 15%Z. split; [reflexivity|lia].
  - cbn. lia.
Defined.

(** What [handleTock] does to a queue that starts with orders of the
    output commodity: the stocks are processed, then these orders are
    served in turn. *)
Lemma handleTock_run (fuel time : nat) (sn : AgentId) (ic oc : Commodity)
    (isz cap : Mass) (inv sto : list Material) (goods rest : list Message)
    (tr : list Event) :
  Forall (fun o => commod (getTrans o) = oc) goods ->
  match rest with
  | [] => True
  | bad :: _ => commod (getTrans bad) <> oc
  end ->
  (List.length goods + List.length inv + List.length sto + 1 < fuel)%nat ->
  exists manifests inv' sto',
    handleTock fuel time
      (mkSim (mkRecipeReactor sn ic oc isz cap inv sto (goods ++ rest)) tr) =
      match rest with
      | [] =>
          Ok tt (mkSim (mkRecipeReactor sn ic oc isz cap inv' sto' [])
                   (tr ++ shipments goods manifests))
      | _ :: _ =>
          Throw CommodityMismatch
            (mkSim (mkRecipeReactor sn ic oc isz cap inv' sto' rest)
               (tr ++ shipments goods manifests))
      end
    /\ List.length manifests = List.length goods
    /\ sumMass inv' + sumMass sto' + total (map sumMass manifests)
         == sumMass inv + sumMass sto
    /\ (nonneg inv -> nonneg sto ->
        Forall2 Qeq (map sumMass manifests)
          (served (sumMass inv + Qmin (Qmax cap 0) (sumMass sto))
             (map getAmount goods))).
Proof.
  intros C B F.
  destruct (process_loop_spec sn ic oc isz cap (goods ++ rest) tr sto fuel 0
              inv) as (added & sto' & R & La & _ & S1 & _ & N1); [lia|].
  destruct (orders_loop_run sn ic oc isz cap sto' goods fuel (inv ++ added)
              tr rest C B) as (manifests & inv' & R2 & Lm & S2 & N2).
  { rewrite length_app. lia. }
  exists manifests, inv', sto'. unfold handleTock, bind. rewrite R, R2.
  split; [destruct rest; reflexivity|]. split; [exact Lm|].
  rewrite sumMass_app in S2. split; [lra|].
  intros NI NS. destruct (N1 NS) as (NA & _ & T1).
  destruct (N2 (proj2 (nonneg_app inv added) (conj NI NA))) as (_ & T2 & _).
  apply (Forall2_Qeq_trans _ _ _ T2). apply served_wd.
  rewrite sumMass_app, T1.
  destruct (Q.max_spec (cap - 0) 0) as [[? H1]|[? H1]]; rewrite H1; qminmax.
Qed.

(** X8. [handleTock] with orders of the output commodity waiting, on
    non-negative quantities that are all [exact]: the stocks are
    processed first, so what is shipped may come from this very
    processing; the orders are served from the front of the queue to its
    back, each getting its amount as far as what is left of
    [sum(inventory) + min(max(capacity, 0), sum(stocks))] goes; the queue
    ends empty; what the inventory holds afterwards plus what was
    shipped is what it held plus what was processed; when no order
    names the facility itself as requester, inventory and stocks
    afterwards plus what was shipped is what the two held before; and
    the quantities shipped and left in the inventory are [exact]
    again. *)
Theorem handleTock_serves_in_turn (fuel time : nat) (s : Sim) :
  Forall (fun o => commod (getTrans o) = out_commod (self s))
         (ordersWaiting (self s)) ->
  nonneg (inventory (self s)) ->
  nonneg (stocks (self s)) ->
  exact (capacity (self s)) ->
  Forall (fun o => exact (getAmount o)) (ordersWaiting (self s)) ->
  exact_all (inventory (self s)) ->
  exact_all (stocks (self s)) ->
  exact (sumMass (inventory (self s)) + sumMass (stocks (self s))) ->
  (List.length (ordersWaiting (self s)) + List.length (inventory (self s))
   + List.length (stocks (self s)) + 1 < fuel)%nat ->
  exists s' manifests,
    handleTock fuel time s = Ok tt s'
    /\ ordersWaiting (self s') = []
    /\ trace s' = trace s ++ shipments (ordersWaiting (self s)) manifests
    /\ List.length manifests = List.length (ordersWaiting (self s))
    /\ Forall2 Qeq (map sumMass manifests)
         (served (checkInventory (self s)
                  + Qmin (Qmax (capacity (self s)) 0) (checkStocks (self s)))
            (map getAmount (ordersWaiting (self s))))
    /\ checkInventory (self s') + total (map sumMass manifests)
         == checkInventory (self s)
            + Qmin (Qmax (capacity (self s)) 0) (checkStocks (self s))
    /\ (Forall (fun o => getRequesterID o <> Some (SN (self s)))
               (ordersWaiting (self s)) ->
        checkInventory (self s') + checkStocks (self s')
        + total (map sumMass manifests)
          == checkInventory (self s) + checkStocks (self s))
    /\ Forall exact_all manifests /\ exact_all (inventory (self s')).
Proof.
  destruct s as [[sn ic oc isz cap inv sto ord] tr].
  cbn [self trace SN in_commod out_commod inventory_size capacity inventory
    stocks ordersWaiting]. intros C NI NS EC EO EAI EAS EST F.
  destruct (process_loop_spec sn ic oc isz cap ord tr sto fuel 0 inv)
    as (added & sto' & R & La & _ & S1 & P0 & N1); [lia|].
  destruct (N1 NS) as (NA & NS' & T1).
  pose proof (exact_bounds _ EST) as [_ U].
  pose proof (sumMass_nonneg _ NI) as PI.
  pose proof (sumMass_nonneg _ NS') as PS'.
  assert (ESS : exact (sumMass sto))
    by (apply exact_sumMass; [exact NS|exact EAS|lra]).
  assert (P' : split_or_take cap sto added sto')
    by (apply (split_or_take_need (cap - 0)); [lra|exact P0]).
  destruct (split_or_take_exact _ _ _ _ P' NS EC EAS ESS) as [EAd _].
  assert (EIA : exact_all (inv ++ added))
    by (apply Forall_app; split; assumption).
  assert (ESI : exact (sumMass (inv ++ added))).
  { apply exact_sumMass; [apply nonneg_app; split; assumption|exact EIA|].
    rewrite sumMass_app. lra. }
  destruct (orders_loop_run sn ic oc isz cap sto' ord fuel (inv ++ added)
              tr [] C I) as (manifests & inv' & R2 & Lm & S2 & N2).
  { rewrite length_app. lia. }
  destruct (N2 (proj2 (nonneg_app inv added) (conj NI NA))) as (_ & T2 & X2).
  destruct (X2 EO EIA ESI) as [EMs EI'].
  rewrite app_nil_r in R2. rewrite sumMass_app in S2.
  assert (E : checkStocks (mkRecipeReactor sn ic oc isz cap inv sto ord)
              == sumMass sto) by apply checkStocks_sum.
  assert (E' : checkInventory (mkRecipeReactor sn ic oc isz cap inv sto ord)
               == sumMass inv) by apply checkInventory_sum.
  assert (P : sumMass added == Qmin (Qmax cap 0)
                (checkStocks (mkRecipeReactor sn ic oc isz cap inv sto ord))).
  { rewrite T1.
    destruct (Q.max_spec (cap - 0) 0) as [[? H1]|[? H1]];
      destruct (Q.max_spec cap 0) as [[? H2]|[? H2]];
      destruct (Q.min_spec (Qmax (cap - 0) 0) (sumMass sto)) as [[? X]|[? X]];
      destruct (Q.min_spec (Qmax cap 0)
                  (checkStocks (mkRecipeReactor sn ic oc isz cap inv sto ord)))
        as [[? Y]|[? Y]]; lra. }
  eexists. exists manifests. unfold handleTock, bind. rewrite R.
  split; [exact R2|].
  cbn [self trace ordersWaiting]. split; [reflexivity|].
  split; [reflexivity|]. split; [exact Lm|]. split.
  - apply (Forall2_Qeq_trans _ _ _ T2). apply served_wd.
    rewrite sumMass_app. lra.
  - split; [|split; [intros _|split; [exact EMs|exact EI']]];
      rewrite ?checkInventory_sum, ?checkStocks_sum;
      cbn [inventory stocks];
      destruct (Q.min_spec (Qmax cap 0) (sumMass sto)) as [[? X]|[? X]];
      destruct (Q.min_spec (Qmax (cap - 0) 0) (sumMass sto)) as [[? Y]|[? Y]];
      destruct (Q.max_spec (cap - 0) 0) as [[? M1]|[? M1]];
      destruct (Q.max_spec cap 0) as [[? M2]|[? M2]]; lra.
Qed.

Lemma handleTock_serves_in_turn_witness :
  exists s' manifests,
    handleTock 6 0
      (mkSim (set_ordersWaiting reactor_split [order_msg 60; order_msg 40]) [])
      = Ok tt s'
    /\ ordersWaiting (self s') = []
    /\ trace s' = [] ++ shipments [order_msg 60; order_msg 40] manifests
    /\ List.length manifests = 2%nat
    /\ Forall2 Qeq (map sumMass manifests)
         (served (checkInventory reactor_split
                  + Qmin (Qmax 10 0) (checkStocks reactor_split))
            [60; 40])
    /\ checkInventory (self s') + total (map sumMass manifests)
         == checkInventory reactor_split
            + Qmin (Qmax 10 0) (checkStocks reactor_split)
    /\ (Forall (fun o => getRequesterID o <> Some 1%nat)
               [order_msg 60; order_msg 40] ->
        checkInventory (self s') + checkStocks (self s')
        + total (map sumMass manifests)
          == checkInventory reactor_split + checkStocks reactor_split)
    /\ Forall exact_all manifests /\ exact_all (inventory (self s')).
Proof.
  apply (handleTock_serves_in_turn 6 0
           (mkSim (set_ordersWaiting reactor_split
                     [order_msg 60; order_msg 40]) [])).
  - repeat constructor.
  - repeat constructor; discriminate.
  - constructor.
  - apply (exact_Z 10). lia.
  - repeat constructor; [apply (exact_Z 60)|apply (exact_Z 40)]; lia.
  - repeat constructor; [apply (exact_Z 30)|apply (exact_Z 50)]; lia.
  - constructor.
  - exists 80%Z. split; [reflexivity|lia].
  - cbn. lia.
Defined.

(** X9. An order of another commodity stops [handleTock]: the orders in
    front of it are shipped, one delivery each and in queue order, then
    [CommodityMismatch] is thrown, and the offending order stays at the
    front of [ordersWaiting] with every order behind it, none of them
    shipped. *)
Theorem handleTock_stops_at_foreign_order (fuel time : nat) (s : Sim)
    (goods rest : list Message) (bad : Message) :
  ordersWaiting (self s) = goods ++ bad :: rest ->
  Forall (fun o => commod (getTrans o) = out_commod (self s)) goods ->
  commod (getTrans bad) <> out_commod (self s) ->
  (List.length goods + List.length (inventory (self s))
   + List.length (stocks (self s)) + 1 < fuel)%nat ->
  exists s' manifests,
    handleTock fuel time s = Throw CommodityMismatch s'
    /\ ordersWaiting (self s') = bad :: rest
    /\ trace s' = trace s ++ shipments goods manifests
    /\ List.length manifests = List.length goods.
Proof.
  destruct s as [[sn ic oc isz cap inv sto ord] tr].
  cbn [self trace SN in_commod out_commod inventory_size capacity inventory
    stocks ordersWaiting]. intros -> C B F.
  destruct (handleTock_run fuel time sn ic oc isz cap inv sto goods
              (bad :: rest) tr C B F)
    as (manifests & inv' & sto' & R & Lm & _).
  eexists. exists manifests. split; [exact R|].
  cbn [self trace ordersWaiting].
  split; [reflexivity|]. split; [reflexivity|exact Lm].
Qed.

Lemma handleTock_stops_at_foreign_order_witness :
  exists s' manifests,
    handleTock 6 0
      (mkSim (set_ordersWaiting reactor_split
                [order_msg 60; msg_circular; order_msg 40]) [])
      = Throw CommodityMismatch s'
    /\ ordersWaiting (self s') = [msg_circular; order_msg 40]
    /\ trace s' = [] ++ shipments [order_msg 60] manifests
    /\ List.length manifests = 1%nat.
Proof.
  apply (handleTock_stops_at_foreign_order 6 0
           (mkSim (set_ordersWaiting reactor_split
                     [order_msg 60; msg_circular; order_msg 40]) [])
           [order_msg 60] [order_msg 40] msg_circular).
  - reflexivity.
  - repeat constructor.
  - discriminate.
  - cbn. lia.
Defined.

(** X10. A delivery whose materials, with the stocks already there, stay
    below the capacity, all quantities being non-negative and [exact],
    is processed whole by the next [handleTock]: the stocks end empty
    and the inventory grows, at its back, by one material for each of
    the stocks and then of the manifest, in this order, with the same
    units, name and ([exact]) quantity. *)
Theorem receiveMaterial_then_handleTock (fuel time : nat)
    (trans : Transaction) (manifest : list Material) (s : Sim) :
  ordersWaiting (self s) = [] ->
  nonneg (stocks (self s)) -> nonneg manifest ->
  exact (capacity (self s)) ->
  exact_all (stocks (self s)) -> exact_all manifest ->
  sumMass (stocks (self s)) + sumMass manifest < capacity (self s) ->
  (S (List.length (stocks (self s)) + List.length manifest) < fuel)%nat ->
  exists added,
    bind (receiveMaterial trans manifest) (fun _ => handleTock fuel time) s =
      Ok tt (mkSim (mkRecipeReactor (SN (self s)) (in_commod (self s))
                      (out_commod (self s)) (inventory_size (self s))
                      (capacity (self s)) (inventory (self s) ++ added)
                      [] [])
                   (trace s))
    /\ Forall2 same_material added (stocks (self s) ++ manifest)
    /\ exact_all added.
Proof.
  destruct s as [[sn ic oc isz cap inv sto ord] tr].
  cbn [self trace SN in_commod out_commod inventory_size capacity inventory
    stocks ordersWaiting]. intros -> NS NM _ ES EM Lt F.
  destruct (process_loop_all sn ic oc isz cap [] tr (sto ++ manifest) fuel 0
              inv) as (added & R & S2).
  { rewrite length_app. lia. }
  { apply nonneg_app. auto. }
  { rewrite sumMass_app. lra. }
  exists added. unfold bind. rewrite receiveMaterial_spec.
  unfold set_stocks, handleTock, bind.
  cbn [self trace SN in_commod out_commod inventory_size capacity inventory
    stocks ordersWaiting]. rewrite R.
  destruct fuel as [|fuel]; [lia|]. split; [reflexivity|].
  split; [exact S2|].
  apply (exact_all_same _ _ S2). apply Forall_app. split; assumption.
Qed.

Lemma receiveMaterial_then_handleTock_witness :
  exists added,
    bind (receiveMaterial (delivery_tx 4) [kg 4]) (fun _ => handleTock 4 0)
         (mkSim reactor_empty []) =
      Ok tt (mkSim (mkRecipeReactor 1%nat commodU commodFuel 10 10
                      ([] ++ added) [] [])
                   [])
    /\ Forall2 same_material added ([] ++ [kg 4])
    /\ exact_all added.
Proof.
  apply (receiveMaterial_then_handleTock 4 0 (delivery_tx 4) [kg 4]
           (mkSim reactor_empty [])).
  - reflexivity.
  - constructor.
  - repeat constructor. discriminate.
  - apply (exact_Z 10). lia.
  - constructor.
  - repeat constructor. apply (exact_Z 4). lia.
  - reflexivity.
  - cbn. lia.
Defined.

(* ------------------------------------------------------------------ *)
(** ** init and copy: a facility starts empty *)

(** X11. [init] fails exactly when a commodity named in the input is
    unknown to the registry; the input commodity is looked up first, so
    when both are unknown the exception names the input commodity.  When
    [init] succeeds the facility has the two commodities of the
    registry, the inventory size and capacity read from the input, and
    empty inventory, stocks and order queue. *)
Theorem init_unknown_commodity (content : string -> string)
    (getCommodity : string -> option Commodity)
    (atof : string -> Mass) (atoi : string -> Z)
    (sn : AgentId) (name : string) :
  (forall e,
     init content getCommodity atof atoi sn name = inl e <->
     (getCommodity (content "incommodity"%string) = None
      /\ e = GenExc ("Input commodity '" ++ content "incommodity"%string
                     ++ "' does not exist for facility '" ++ name ++ "'.")%string)
     \/ (getCommodity (content "incommodity"%string) <> None
         /\ getCommodity (content "outcommodity"%string) = None
         /\ e = GenExc ("Output commodity '" ++ content "outcommodity"%string
                        ++ "' does not exist for facility '" ++ name ++ "'.")%string))
  /\ (forall r d,
        init content getCommodity atof atoi sn name = inr (r, d) ->
        getCommodity (content "incommodity"%string) = Some (in_commod r)
        /\ getCommodity (content "outcommodity"%string) = Some (out_commod r)
        /\ SN r = sn
        /\ inventory_size r = atof (content "inventorysize"%string)
        /\ capacity r = atof (content "capacity"%string)
        /\ inventory r = [] /\ stocks r = [] /\ ordersWaiting r = []).
Proof.
  unfold init. split.
  - intro e.
    destruct (getCommodity (content "incommodity"%string)) as [in_c|].
    + destruct (getCommodity (content "outcommodity"%string)) as [out_c|].
      * split; [discriminate|].
        intros [[X _]|(_ & X & _)]; discriminate X.
      * split.
        -- intro H. injection H as <-. right.
           split; [discriminate|]. split; reflexivity.
        -- intros [[X _]|(_ & _ & ->)]; [discriminate X|reflexivity].
    + split.
      * intro H. injection H as <-. left. split; reflexivity.
      * intros [[_ ->]|(X & _)]; [reflexivity|contradiction].
  - intros r d.
    destruct (getCommodity (content "incommodity"%string)) as [in_c|];
      [|discriminate].
    destruct (getCommodity (content "outcommodity"%string)) as [out_c|];
      [|discriminate].
    intro H. injection H as <- _. cbn. repeat split; reflexivity.
Qed.

(** X12. [copy] takes every parameter of the source and none of its
    contents: whatever the source holds and whoever waits on it, the
    copy holds nothing, has no order waiting, and its [handleTock]
    returns at once, with no call made and nothing changed.
    [copyFreshModel] is [copy]. *)
Theorem copy_takes_no_contents (sn : AgentId)
    (src : RecipeReactor * ReactorData) (fuel time : nat) (tr : list Event) :
  copyFreshModel sn src = copy sn src
  /\ snd (copy sn src) = snd src
  /\ in_commod (fst (copy sn src)) = in_commod (fst src)
  /\ out_commod (fst (copy sn src)) = out_commod (fst src)
  /\ inventory_size (fst (copy sn src)) = inventory_size (fst src)
  /\ capacity (fst (copy sn src)) = capacity (fst src)
  /\ checkInventory (fst (copy sn src)) == 0
  /\ checkStocks (fst (copy sn src)) == 0
  /\ free_space (fst (copy sn src)) == inventory_size (fst src)
  /\ ordersWaiting (fst (copy sn src)) = []
  /\ ((1 <= fuel)%nat ->
      handleTock fuel time (mkSim (fst (copy sn src)) tr) =
        Ok tt (mkSim (fst (copy sn src)) tr)).
Proof.
  split; [reflexivity|].
  split; [destruct src as [r []]; reflexivity|].
  repeat (split; [reflexivity|]).
  split; [unfold free_space, checkInventory, checkStocks; cbn; lra|].
  split; [reflexivity|].
  intro F. destruct fuel as [|fuel]; [lia|].
  unfold handleTock, bind. cbn [process_loop]. unfold bind, get_self, ret.
  cbn [copy fst self stocks capacity empty negb].
  rewrite andb_false_r. reflexivity.
Qed.

Lemma copy_takes_no_contents_witness :
  handleTock 1 0 (mkSim (fst (copy 9%nat (reactor_split,
      mkReactorData 40 2010 1 2015 6 2055 6 "operating"%string "PWR"%string
        (9#10)))) [])
  = Ok tt (mkSim (fst (copy 9%nat (reactor_split,
      mkReactorData 40 2010 1 2015 6 2055 6 "operating"%string "PWR"%string
        (9#10)))) []).
Proof.
  apply (copy_takes_no_contents 9%nat
           (reactor_split,
            mkReactorData 40 2010 1 2015 6 2055 6 "operating"%string "PWR"%string
        (9#10))
           1 0 []).
  lia.
Defined.

(* ------------------------------------------------------------------ *)
(** ** Env::Instance *)

Lemma Instance_calls_set (n : nat) (e next : nat) :
  Instance_calls n (mkEnvStatics (Some e) next)
    = (repeat e n, mkEnvStatics (Some e) next).
Proof.
  induction n as [|n IH]; [reflexivity|].
  cbn [Instance_calls Instance instance_]. rewrite IH. reflexivity.
Qed.

(** X13. [Env::Instance] makes the [Env] at most once: after a first
    call [instance_] is set to the pointer returned, and any number of
    further calls return this same pointer and leave the statics, and
    with them the free store, as they are.  The first call allocates
    only when [instance_] was null. *)
Theorem Instance_is_singleton (n : nat) (p : EnvStatics) :
  instance_ (snd (Instance p)) = Some (fst (Instance p))
  /\ Instance_calls n (snd (Instance p))
       = (repeat (fst (Instance p)) n, snd (Instance p))
  /\ (instance_ p = None ->
      fst (Instance p) = next_new p
      /\ next_new (snd (Instance p)) = S (next_new p))
  /\ (forall e, instance_ p = Some e ->
      fst (Instance p) = e /\ snd (Instance p) = p).
Proof.
  destruct p as [[e|] next]; unfold Instance; cbn [instance_ next_new fst snd].
  - split; [reflexivity|]. split; [apply Instance_calls_set|].
    split; [discriminate|]. intros e' H. injection H as <-. auto.
  - split; [reflexivity|]. split; [apply Instance_calls_set|].
    split; [auto|]. discriminate.
Qed.

(* ------------------------------------------------------------------ *)
(** ** Model::loadConstructor *)

Lemma map_find_set_same {V} (k : string) (v : V) (m : StrMap V) :
  map_find k (map_set k v m) = Some v.
Proof.
  induction m as [|[k' v'] m IH]; cbn [map_set map_find].
  - now rewrite String.eqb_refl.
  - destruct (String.eqb k k') eqn:E; cbn [map_find].
    + now rewrite String.eqb_refl.
    + now rewrite E.
Qed.

Lemma map_find_set_other {V} (k k' : string) (v : V) (m : StrMap V) :
  k' <> k -> map_find k' (map_set k v m) = map_find k' m.
Proof.
  intro N. apply String.eqb_neq in N.
  induction m as [|[k0 v0] m IH]; cbn [map_set map_find].
  - now rewrite N.
  - destruct (String.eqb k k0) eqn:E; cbn [map_find].
    + apply String.eqb_eq in E. subst k0. now rewrite N.
    + now rewrite IH.
Qed.

Lemma map_set_twice {V} (k : string) (v : V) (m : StrMap V) :
  map_set k v (map_set k v m) = map_set k v m.
Proof.
  induction m as [|[k' v'] m IH]; cbn [map_set].
  - now rewrite String.eqb_refl.
  - destruct (String.eqb k k') eqn:E; cbn [map_set].
    + now rewrite String.eqb_refl.
    + rewrite E. now rewrite IH.
Qed.

Lemma string_length_append (a b : string) :
  String.length (a ++ b) = (String.length a + String.length b)%nat.
Proof.
  induction a as [|c a IH]; cbn; [reflexivity|]. now rewrite IH.
Qed.

(** The file of a model is never the model's name: it is longer. *)
Lemma library_file_neq (start_path suffix model_type model_name : string) :
  model_name <> library_file start_path suffix model_type model_name.
Proof.
  intro E. apply (f_equal String.length) in E. revert E.
  unfold library_file. rewrite !string_length_append. cbn. lia.
Qed.

(** X14. When [loadConstructor] throws, the model was not in
    [create_map_], the linker was asked for the model's file, and
    neither map has changed: also a library whose constructor was found
    and whose destructor is missing registers nothing.  The exception
    tells which of the three steps failed. *)
Theorem loadConstructor_failure (dl : Linker)
    (start_path suffix model_type model_name : string)
    (st st' : ModelStatics) (e : CycIOException) :
  let file := library_file start_path suffix model_type model_name in
  loadConstructor dl start_path suffix model_type model_name st
    = LoadThrows e st' ->
  map_find model_name (create_map_ st) = None
  /\ create_map_ st' = create_map_ st
  /\ destroy_map_ st' = destroy_map_ st
  /\ dlopened st' = dlopened st ++ [file]
  /\ ((dlopen dl file = None
       /\ e = CycIOExc ("Unable to load model shared object file: "
                        ++ dlerror dl (DlOpen file)))
      \/ (exists h,
            dlopen dl file = Some h
            /\ dlsym dl h "construct" = None
            /\ e = CycIOExc ("Unable to load model constructor: "
                             ++ dlerror dl (DlSym h "construct")))
      \/ (exists h c,
            dlopen dl file = Some h
            /\ dlsym dl h "construct" = Some c
            /\ dlsym dl h "destruct" = None
            /\ e = CycIOExc ("Unable to load model destructor: "
                             ++ dlerror dl (DlSym h "destruct")))).
Proof.
  intros file H. subst file. unfold loadConstructor in H.
  destruct (map_find model_name (create_map_ st)) as [c0|]; [discriminate|].
  split; [reflexivity|].
  destruct (dlopen dl (library_file start_path suffix model_type model_name))
    as [h|] eqn:O.
  - destruct (dlsym dl h "construct") as [c|] eqn:C.
    + destruct (dlsym dl h "destruct") as [d|] eqn:D; [discriminate|].
      injection H as <- <-. cbn.
      repeat (split; [reflexivity|]). right. right. exists h, c. auto.
    + injection H as <- <-. cbn.
      repeat (split; [reflexivity|]). right. left. exists h. auto.
  - injection H as <- <-. cbn.
    repeat (split; [reflexivity|]). left. auto.
Qed.

Lemma loadConstructor_failure_witness :
  map_find "RecipeReactor" (create_map_ statics_empty) = None
  /\ create_map_ (mkModelStatics [] [] [reactor_library])
     = create_map_ statics_empty
  /\ destroy_map_ (mkModelStatics [] [] [reactor_library])
     = destroy_map_ statics_empty
  /\ dlopened (mkModelStatics [] [] [reactor_library])
     = dlopened statics_empty ++ [reactor_library]
  /\ ((dlopen linker_no_destruct reactor_library = None
       /\ CycIOExc "Unable to load model destructor: undefined symbol" =
            CycIOExc ("Unable to load model shared object file: "
                      ++ dlerror linker_no_destruct (DlOpen reactor_library)))
      \/ (exists h,
            dlopen linker_no_destruct reactor_library = Some h
            /\ dlsym linker_no_destruct h "construct" = None
            /\ CycIOExc "Unable to load model destructor: undefined symbol" =
                 CycIOExc ("Unable to load model constructor: "
                           ++ dlerror linker_no_destruct (DlSym h "construct")))
      \/ (exists h c,
            dlopen linker_no_destruct reactor_library = Some h
            /\ dlsym linker_no_destruct h "construct" = Some c
            /\ dlsym linker_no_destruct h "destruct" = None
            /\ CycIOExc "Unable to load model destructor: undefined symbol" =
                 CycIOExc ("Unable to load model destructor: "
                           ++ dlerror linker_no_destruct (DlSym h "destruct")))).
Proof.
  apply (loadConstructor_failure linker_no_destruct "/opt/cyclus" ".so"
           "Facility" "RecipeReactor" statics_empty
           (mkModelStatics [] []
              [library_file "/opt/cyclus" ".so" "Facility" "RecipeReactor"])
           (CycIOExc "Unable to load model destructor: undefined symbol")).
  reflexivity.
Defined.

(** X15. A model that is not in [create_map_] and whose library has
    both factories: [loadConstructor] returns the constructor found by
    the linker and registers constructor and destructor under the name
    of the library file, every other entry of the two maps staying as it
    was; the model's own name, which is never that file name, is still
    not a key of [create_map_]. *)
Theorem loadConstructor_registers_file (dl : Linker)
    (start_path suffix model_type model_name : string) (st : ModelStatics)
    (h : Handle) (c d : Symbol) :
  let file := library_file start_path suffix model_type model_name in
  map_find model_name (create_map_ st) = None ->
  dlopen dl file = Some h ->
  dlsym dl h "construct" = Some c ->
  dlsym dl h "destruct" = Some d ->
  exists st',
    loadConstructor dl start_path suffix model_type model_name st
      = LoadReturns c st'
    /\ dlopened st' = dlopened st ++ [file]
    /\ map_find file (create_map_ st') = Some c
    /\ map_find file (destroy_map_ st') = Some d
    /\ (forall k, k <> file ->
          map_find k (create_map_ st') = map_find k (create_map_ st)
          /\ map_find k (destroy_map_ st') = map_find k (destroy_map_ st))
    /\ map_find model_name (create_map_ st') = None.
Proof.
  intros file M O C D. unfold loadConstructor. fold file.
  rewrite M, O, C, D. eexists. split; [reflexivity|].
  cbn [create_map_ destroy_map_ dlopened].
  split; [reflexivity|]. split; [apply map_find_set_same|].
  split; [apply map_find_set_same|]. split.
  - intros k N. split; now apply map_find_set_other.
  - rewrite map_find_set_other; [exact M|]. apply library_file_neq.
Qed.

Lemma loadConstructor_registers_file_witness :
  exists st',
    loadConstructor linker_ok "/opt/cyclus" ".so" "Facility" "RecipeReactor"
      statics_empty = LoadReturns 100%nat st'
    /\ dlopened st' = dlopened statics_empty ++ [reactor_library]
    /\ map_find reactor_library (create_map_ st') = Some 100%nat
    /\ map_find reactor_library (destroy_map_ st') = Some 101%nat
    /\ (forall k, k <> reactor_library ->
          map_find k (create_map_ st') = map_find k (create_map_ statics_empty)
          /\ map_find k (destroy_map_ st')
             = map_find k (destroy_map_ statics_empty))
    /\ map_find "RecipeReactor" (create_map_ st') = None.
Proof.
  apply (loadConstructor_registers_file linker_ok "/opt/cyclus" ".so"
           "Facility" "RecipeReactor" statics_empty 1%nat 100%nat 101%nat);
    reflexivity.
Defined.

Lemma app_one_neq {A} (l : list A) (x : A) : l ++ [x] <> l.
Proof.
  intro E. apply (f_equal (@List.length A)) in E.
  rewrite length_app in E. cbn in E. lia.
Qed.

(** A call of [loadConstructor] leaves the record of [dlopen] calls as
    it is exactly when the model name is a key of [create_map_]. *)
Lemma loadConstructor_from_map_iff (dl : Linker)
    (start_path suffix model_type model_name : string) (st : ModelStatics) :
  dlopened (statics_after
              (loadConstructor dl start_path suffix model_type model_name st))
    = dlopened st
  <-> map_find model_name (create_map_ st) <> None.
Proof.
  unfold loadConstructor.
  destruct (map_find model_name (create_map_ st)) as [c0|].
  - cbn. split; [discriminate|reflexivity].
  - split; [|intro X; contradiction].
    destruct (dlopen dl _) as [h|];
      [destruct (dlsym dl h "construct") as [c|];
       [destruct (dlsym dl h "destruct") as [d|]|]|];
      cbn; intro E; exfalso; exact (app_one_neq _ _ E).
Qed.

(** X16. Loading the same model again by its name does not use what the
    first load registered: the name is not a key of [create_map_], so
    the linker is asked for the library a second time; the constructor
    returned is the same and the maps are as the first load left them.
    After the first load a call is answered from the map, without the
    linker, exactly when its model name is the library's file name or
    was a key of [create_map_] before; a call by the file name returns
    the constructor of the first load. *)
Theorem loadConstructor_again (dl : Linker)
    (start_path suffix model_type model_name : string) (st st1 : ModelStatics)
    (c : Symbol) :
  let file := library_file start_path suffix model_type model_name in
  map_find model_name (create_map_ st) = None ->
  loadConstructor dl start_path suffix model_type model_name st
    = LoadReturns c st1 ->
  loadConstructor dl start_path suffix model_type model_name st1
    = LoadReturns c (mkModelStatics (create_map_ st1) (destroy_map_ st1)
                       (dlopened st ++ [file; file]))
  /\ loadConstructor dl start_path suffix model_type file st1
     = LoadReturns c st1
  /\ (forall other_type other_name,
        dlopened (statics_after
                    (loadConstructor dl start_path suffix other_type
                       other_name st1))
          = dlopened st1
        <-> other_name = file
            \/ map_find other_name (create_map_ st) <> None).
Proof.
  intros file M H. unfold loadConstructor in H. fold file in H.
  rewrite M in H.
  destruct (dlopen dl file) as [h|] eqn:O; [|discriminate].
  destruct (dlsym dl h "construct") as [c'|] eqn:C; [|discriminate].
  destruct (dlsym dl h "destruct") as [d|] eqn:D; [|discriminate].
  injection H as -> <-. split; [|split].
  - unfold loadConstructor. fold file.
    cbn [create_map_ destroy_map_ dlopened].
    rewrite map_find_set_other; [|apply library_file_neq].
    rewrite M, O, C, D. rewrite !map_set_twice.
    now rewrite <- app_assoc.
  - unfold loadConstructor. cbn [create_map_].
    now rewrite map_find_set_same.
  - intros other_type other_name.
    rewrite loadConstructor_from_map_iff. cbn [create_map_].
    destruct (string_dec other_name file) as [->|N].
    + rewrite map_find_set_same. split; [auto|discriminate].
    + rewrite map_find_set_other; [|exact N].
      split; [auto|]. intros [X|X]; [contradiction|exact X].
Qed.

Lemma loadConstructor_again_witness :
  loadConstructor linker_ok "/opt/cyclus" ".so" "Facility" "RecipeReactor"
    (mkModelStatics [(reactor_library, 100%nat)]
       [(reactor_library, 101%nat)] [reactor_library])
    = LoadReturns 100%nat
        (mkModelStatics [(reactor_library, 100%nat)]
           [(reactor_library, 101%nat)]
           ([] ++ [reactor_library; reactor_library]))
  /\ loadConstructor linker_ok "/opt/cyclus" ".so" "Facility" reactor_library
       (mkModelStatics [(reactor_library, 100%nat)]
          [(reactor_library, 101%nat)] [reactor_library])
     = LoadReturns 100%nat
         (mkModelStatics [(reactor_library, 100%nat)]
            [(reactor_library, 101%nat)] [reactor_library])
  /\ (forall other_type other_name,
        dlopened (statics_after
                    (loadConstructor linker_ok "/opt/cyclus" ".so" other_type
                       other_name
                       (mkModelStatics [(reactor_library, 100%nat)]
                          [(reactor_library, 101%nat)] [reactor_library])))
          = [reactor_library]
        <-> other_name = reactor_library
            \/ map_find other_name (create_map_ statics_empty) <> None).
Proof.
  apply (loadConstructor_again linker_ok "/opt/cyclus" ".so" "Facility"
           "RecipeReactor" statics_empty
           (mkModelStatics
              [(library_file "/opt/cyclus" ".so" "Facility" "RecipeReactor",
                100%nat)]
              [(library_file "/opt/cyclus" ".so" "Facility" "RecipeReactor",
                101%nat)]
              [library_file "/opt/cyclus" ".so" "Facility" "RecipeReactor"])
           100%nat); reflexivity.
Defined.
